(** * Global Communication: matchmaking and message relay

    A shallow embedding of the chat server of the repository:
    - [shared/schema]: the rows of the [users], [chat_rooms], [messages] and
      [dictionary_entries] tables with their key, not-null and foreign-key
      constraints;
    - [server/storage.ts]: [DatabaseStorage], one statement per definition;
    - [server/services/translationService.ts]: [translateText] and
      [detectLanguage];
    - [server/services/chatService.ts]: the registry [users] and every
      WebSocket handler;
    - [server/routes.ts]: the dictionary and translation routes.

    Handlers are [async] functions in the source.  Here every handler runs
    to completion before the next event is taken, in a state-and-exception
    monad over the server state: [step], [run] and [reachable] describe a
    server whose handlers do not interleave.  A [World] records what the
    outside does during one handler: the clock, the generated key, which
    kinds of statement the database refuses, and the answer of the
    translation API. *)

From Stdlib Require Import List String Ascii Bool Arith Lia Permutation.
From Stdlib Require Import Sorted.
Import ListNotations.
Open Scope string_scope.
Open Scope list_scope.

(** ** Values coming from JavaScript *)

Definition Socket := nat.
Definition Time := nat.

(** [v || d] and [if (v)] on a value that is a string or [undefined]:
    [undefined] and the empty string are falsy. *)
Definition truthy (v : option string) : option string :=
  match v with
  | Some s => if String.eqb s "" then None else Some s
  | None => None
  end.

Definition orElse (v : option string) (d : string) : string :=
  match truthy v with
  | Some s => s
  | None => d
  end.

(** [a === b] on such values. *)
Definition strictEq (a b : option string) : bool :=
  match a, b with
  | Some x, Some y => String.eqb x y
  | None, None => true
  | _, _ => false
  end.

(** ** Texts

    A [string] holds a JavaScript string in generalized UTF-8: every code
    point is written as UTF-8 writes it, and a surrogate code unit without a
    partner (a lone surrogate, U+D800 to U+DFFF) as the three bytes ED,
    A0..BF, 80..BF that the same scheme gives it.  A surrogate pair is the
    four bytes of its code point. *)

Definition bytes (l : list nat) : string :=
  fold_right (fun n s => String (ascii_of_nat n) s) EmptyString l.

Fixpoint reverseOnto (s acc : string) : string :=
  match s with
  | String c s' => reverseOnto s' (String c acc)
  | EmptyString => acc
  end.

Definition reverse (s : string) : string := reverseOnto s EmptyString.

(** The first two bytes of an encoded surrogate. *)
Definition isSurrogate (c1 c2 : ascii) : bool :=
  Nat.eqb (nat_of_ascii c1) 237
  && Nat.leb 160 (nat_of_ascii c2) && Nat.leb (nat_of_ascii c2) 191.

Fixpoint hasLoneSurrogate (s : string) : bool :=
  match s with
  | String c1 s1 =>
      match s1 with
      | String c2 _ => isSurrogate c1 c2 || hasLoneSurrogate s1
      | EmptyString => false
      end
  | EmptyString => false
  end.

(** The conversion of a string to UTF-8 by the database driver: a lone
    surrogate becomes U+FFFD, the bytes EF BF BD. *)
Fixpoint toWellFormed (s : string) : string :=
  match s with
  | String c1 s1 =>
      match s1 with
      | String c2 s2 =>
          if isSurrogate c1 c2 then
            match s2 with
            | String _ s3 => bytes [239; 191; 189] ++ toWellFormed s3
            | EmptyString => bytes [239; 191; 189]
            end
          else String c1 (toWellFormed s1)
      | EmptyString => s
      end
  | EmptyString => s
  end.

(** The character U+0000, which no [text] or [varchar] column accepts. *)
Fixpoint hasNul (s : string) : bool :=
  match s with
  | String c s' => Nat.eqb (nat_of_ascii c) 0 || hasNul s'
  | EmptyString => false
  end.

(** [String.prototype.trim] removes white space and line terminators from
    both ends: U+0009 to U+000D and U+0020, one byte each; U+00A0, two
    bytes; U+1680, U+2000 to U+200A, U+2028, U+2029, U+202F, U+205F, U+3000
    and U+FEFF, three bytes each. *)
Definition isSpace (c : ascii) : bool :=
  let n := nat_of_ascii c in
  Nat.eqb n 32 || (Nat.leb 9 n && Nat.leb n 13).

Definition isSpace2 (c1 c2 : ascii) : bool :=
  Nat.eqb (nat_of_ascii c1) 194 && Nat.eqb (nat_of_ascii c2) 160.

Definition isSpace3 (c1 c2 c3 : ascii) : bool :=
  let a := nat_of_ascii c1 in
  let b := nat_of_ascii c2 in
  let c := nat_of_ascii c3 in
  (Nat.eqb a 225 && Nat.eqb b 154 && Nat.eqb c 128)
  || (Nat.eqb a 226 && Nat.eqb b 128
      && ((Nat.leb 128 c && Nat.leb c 138)
          || Nat.eqb c 168 || Nat.eqb c 169 || Nat.eqb c 175))
  || (Nat.eqb a 226 && Nat.eqb b 129 && Nat.eqb c 159)
  || (Nat.eqb a 227 && Nat.eqb b 128 && Nat.eqb c 128)
  || (Nat.eqb a 239 && Nat.eqb b 187 && Nat.eqb c 191).

(** The string without the white space it starts with; [two] and [three]
    recognise the characters of two and three bytes. *)
Fixpoint dropSpaces (two : ascii -> ascii -> bool) (three : ascii -> ascii -> ascii -> bool)
    (s : string) : string :=
  match s with
  | String c1 s1 =>
      if isSpace c1 then dropSpaces two three s1
      else
        match s1 with
        | String c2 s2 =>
            if two c1 c2 then dropSpaces two three s2
            else
              match s2 with
              | String c3 s3 => if three c1 c2 c3 then dropSpaces two three s3 else s
              | EmptyString => s
              end
        | EmptyString => s
        end
  | EmptyString => s
  end.

Definition trimStart (s : string) : string := dropSpaces isSpace2 isSpace3 s.

(** At the end of the string the bytes of a character are met last first. *)
Definition trimEnd (s : string) : string :=
  reverse (dropSpaces (fun c2 c1 => isSpace2 c1 c2)
                      (fun c3 c2 c1 => isSpace3 c1 c2 c3) (reverse s)).

Definition trim (s : string) : string := trimEnd (trimStart s).

(** ** shared/schema *)

Record User := mkUser {
  user_id : string;
  firstName : option string;
  lastName : option string;
  user_preferredLanguage : string
}.

Record ChatRoom := mkChatRoom {
  id : string;
  user1Id : string;
  user2Id : option string;
  isActive : bool;
  createdAt : Time;
  endedAt : option Time
}.

Record Message := mkMessage {
  msg_id : string;
  msg_chatRoomId : string;
  msg_senderId : string;
  msg_content : string;
  msg_originalLanguage : string;
  msg_createdAt : Time
}.

Record InsertChatRoom := mkInsertChatRoom {
  ins_user1Id : string;
  ins_user2Id : option string
}.

(** [InsertMessage] as the handler builds it from an untyped envelope: a
    field can be [undefined] at run time. *)
Record InsertMessage := mkInsertMessage {
  ins_chatRoomId : option string;
  ins_senderId : option string;
  ins_content : option string;
  ins_originalLanguage : string
}.

(** ** Envelopes *)

(** What a client sends: [message: any], read field by field. *)
Record ClientMessage := mkClientMessage {
  m_type : option string;
  m_userId : option string;
  m_preferredLanguage : option string;
  m_content : option string;
  m_chatRoomId : option string;
  m_sourceLanguage : option string;
  m_targetLanguage : option string;
  m_isTyping : option bool
}.

(** [interface ChatMessage]: one constructor per [type] tag, with the fields
    the server fills in for it. *)
Inductive ChatMessage :=
| MessageFrame (chatRoomId senderId content : option string)
               (originalLanguage : string) (timestamp : Time)
| UserJoinedFrame (chatRoomId otherId name otherLanguage : string)
| UserLeftFrame (message : string)
| TranslationFrame (translatedContent originalLanguage targetLanguage : option string)
| TypingFrame (senderId : option string) (isTyping : option bool)
| ErrorFrame (error : string)
| WaitingFrame (message : string).

(** ** chatService.ts: [interface ChatUser] *)

Record ChatUser := mkChatUser {
  userId : string;
  socket : Socket;
  chatRoomId : option string;
  preferredLanguage : string
}.

(** ** The server state *)

Record State := mkState {
  users : list (string * ChatUser);      (* ChatService.users, in insertion order *)
  db_users : list User;                  (* table users *)
  db_chatRooms : list ChatRoom;          (* table chat_rooms, in insertion order *)
  db_messages : list Message;            (* table messages *)
  openSockets : list Socket;             (* sockets whose readyState is OPEN *)
  wire : list (Socket * ChatMessage)     (* frames sent so far, oldest first *)
}.

Definition withUsers (us : list (string * ChatUser)) (st : State) : State :=
  mkState us (db_users st) (db_chatRooms st) (db_messages st) (openSockets st) (wire st).

Definition withChatRooms (t : list ChatRoom) (st : State) : State :=
  mkState (users st) (db_users st) t (db_messages st) (openSockets st) (wire st).

Definition withMessages (t : list Message) (st : State) : State :=
  mkState (users st) (db_users st) (db_chatRooms st) t (openSockets st) (wire st).

Definition withOpenSockets (l : list Socket) (st : State) : State :=
  mkState (users st) (db_users st) (db_chatRooms st) (db_messages st) l (wire st).

Definition withWire (l : list (Socket * ChatMessage)) (st : State) : State :=
  mkState (users st) (db_users st) (db_chatRooms st) (db_messages st) (openSockets st) l.

(** ** The outside world during one handler *)

Inductive DbOp :=
| SelectUsers | SelectChatRooms | InsertChatRooms | UpdateChatRooms | InsertMessages.

(** The body of the translation API's answer.  [responseStatus] is [Some n]
    when the field is the number [n]; [responseData] is [None] when the
    field is absent, and otherwise holds its [translatedText] field. *)
Record ApiBody := mkApiBody {
  responseStatus : option nat;
  responseDetails : option string;
  responseData : option (option string)
}.

Inductive FetchOutcome :=
| NetworkFailure                                       (* fetch rejects *)
| HttpResponse (status : nat) (body : option ApiBody). (* body None: json() rejects *)

Record World := mkWorld {
  now : Time;                  (* new Date(), defaultNow() *)
  uuid : string;               (* gen_random_uuid() *)
  dbFault : DbOp -> bool;      (* the statements of this kind are refused *)
  apiReply : FetchOutcome
}.

(** ** Row order of a query without ORDER BY

    None of the queries of [storage.ts] on [users] and [chat_rooms] carries
    an [orderBy]: the rows come back in the order the database scans them,
    which is some arrangement of the table. *)
Class RowOrder := mkRowOrder {
  scanRooms : list ChatRoom -> list ChatRoom;
  scanRooms_perm : forall t, Permutation (scanRooms t) t;
  scanUsers : list User -> list User;
  scanUsers_perm : forall t, Permutation (scanUsers t) t
}.

(** Rows returned oldest first, and newest first. *)
Definition insertionOrder : RowOrder :=
  mkRowOrder (fun t => t) (@Permutation_refl _)
             (fun t => t) (@Permutation_refl _).

Definition newestFirst : RowOrder :=
  mkRowOrder (@rev _) (fun t => Permutation_sym (Permutation_rev t))
             (@rev _) (fun t => Permutation_sym (Permutation_rev t)).

(** ** State and exceptions *)

Inductive Result (A : Type) :=
| Ok (a : A)
| Throw (e : string).
Arguments Ok {A} a.
Arguments Throw {A} e.

Definition M (A : Type) := State -> Result A * State.

Definition ret {A} (a : A) : M A := fun st => (Ok a, st).

Definition bind {A B} (m : M A) (k : A -> M B) : M B :=
  fun st =>
    match m st with
    | (Ok a, st') => k a st'
    | (Throw e, st') => (Throw e, st')
    end.

Definition throw {A} (e : string) : M A := fun st => (Throw e, st).

Definition tryCatch {A} (m : M A) (h : string -> M A) : M A :=
  fun st =>
    match m st with
    | (Ok a, st') => (Ok a, st')
    | (Throw e, st') => h e st'
    end.

(** The outcome of a call that does not touch the server state. *)
Definition await {A} (r : Result A) : M A := fun st => (r, st).

Definition get : M State := fun st => (Ok st, st).
Definition modify (f : State -> State) : M unit := fun st => (Ok tt, f st).

Declare Scope chat_scope.
Notation "x <- m ;; k" := (bind m (fun x => k))
  (at level 61, m at next level, right associativity) : chat_scope.
Notation "m ;;; k" := (bind m (fun _ => k))
  (at level 61, right associativity) : chat_scope.
Open Scope chat_scope.

Fixpoint forEach {A} (l : list A) (f : A -> M unit) : M unit :=
  match l with
  | [] => ret tt
  | x :: l' => f x ;;; forEach l' f
  end.

Section Server.
Context {db : RowOrder}.

(** ** storage.ts *)

(** A statement reaches the database or is refused by the driver. *)
Definition statement (w : World) (op : DbOp) : M unit :=
  fun st => if dbFault w op then (Throw "database error", st) else (Ok tt, st).

Definition hasUser (k : string) (t : list User) : bool :=
  existsb (fun u => String.eqb (user_id u) k) t.

Definition hasChatRoom (k : string) (t : list ChatRoom) : bool :=
  existsb (fun r => String.eqb (id r) k) t.

Definition hasMessage (k : string) (t : list Message) : bool :=
  existsb (fun m => String.eqb (msg_id m) k) t.

(** [db.select().from(users).where(eq(users.id, id))], first row. *)
Definition getUser (w : World) (k : string) : M (option User) :=
  statement w SelectUsers ;;;
  st <- get ;;
  ret (hd_error (filter (fun u => String.eqb (user_id u) k) (scanUsers (db_users st)))).

(** [db.insert(chatRooms).values(chatRoomData).returning()]: the key is
    generated, [isActive] and [createdAt] take their defaults; the primary
    key and the references to [users] are checked. *)
Definition createChatRoom (w : World) (chatRoomData : InsertChatRoom) : M ChatRoom :=
  statement w InsertChatRooms ;;;
  st <- get ;;
  if hasChatRoom (uuid w) (db_chatRooms st) then throw "duplicate key"
  else if negb (hasUser (ins_user1Id chatRoomData) (db_users st)) then
    throw "foreign key violation"
  else if negb (match ins_user2Id chatRoomData with
                | Some user2 => hasUser user2 (db_users st)
                | None => true
                end) then
    throw "foreign key violation"
  else
    let chatRoom :=
      mkChatRoom (uuid w) (ins_user1Id chatRoomData) (ins_user2Id chatRoomData)
                 true (now w) None in
    modify (withChatRooms (db_chatRooms st ++ [chatRoom])) ;;;
    ret chatRoom.

(** The [where] clause of the first query of [findOrCreateChatRoom]. *)
Definition waitingFor (user : string) (r : ChatRoom) : bool :=
  match user2Id r with None => true | Some _ => false end
  && isActive r
  && negb (String.eqb (user1Id r) user).

Definition setUser2Id (user : string) (r : ChatRoom) : ChatRoom :=
  mkChatRoom (id r) (user1Id r) (Some user) (isActive r) (createdAt r) (endedAt r).

Definition setEnded (t : Time) (r : ChatRoom) : ChatRoom :=
  mkChatRoom (id r) (user1Id r) (user2Id r) false (createdAt r) (Some t).

(** [db.update(chatRooms).set(...).where(eq(chatRooms.id, key)).returning()] *)
Definition updateWhereId (key : string) (f : ChatRoom -> ChatRoom)
    (t : list ChatRoom) : list ChatRoom :=
  map (fun r => if String.eqb (id r) key then f r else r) t.

Definition findOrCreateChatRoom (w : World) (user : string) : M ChatRoom :=
  statement w SelectChatRooms ;;;
  st <- get ;;
  match firstn 1 (filter (waitingFor user) (scanRooms (db_chatRooms st))) with
  | existingRoom :: _ =>
      statement w UpdateChatRooms ;;;
      if negb (hasUser user (db_users st)) then throw "foreign key violation"
      else
        let t' := updateWhereId (id existingRoom) (setUser2Id user) (db_chatRooms st) in
        modify (withChatRooms t') ;;;
        match filter (fun r => String.eqb (id r) (id existingRoom)) (scanRooms t') with
        | updatedRoom :: _ => ret updatedRoom
        | [] => throw "TypeError"  (* the caller reads [chatRoom.id] of undefined *)
        end
  | [] => createChatRoom w (mkInsertChatRoom user None)
  end.

(** A key that is [undefined] is sent as NULL and compares equal to no row. *)
Definition getChatRoom (w : World) (key : option string) : M (option ChatRoom) :=
  statement w SelectChatRooms ;;;
  st <- get ;;
  match key with
  | Some k => ret (hd_error (filter (fun r => String.eqb (id r) k) (scanRooms (db_chatRooms st))))
  | None => ret None
  end.

Definition endChatRoom (w : World) (key : option string) : M unit :=
  statement w UpdateChatRooms ;;;
  match key with
  | Some k => modify (fun st => withChatRooms (updateWhereId k (setEnded (now w)) (db_chatRooms st)) st)
  | None => ret tt
  end.

(** [db.insert(messages).values(messageData).returning()]: every column is
    not null, the key is generated and [createdAt] is the insertion time.
    The driver sends the two free texts as UTF-8, and the database refuses a
    text that holds the character U+0000; the two keys are compared with the
    keys of the rows they refer to. *)
Definition createMessage (w : World) (messageData : InsertMessage) : M Message :=
  statement w InsertMessages ;;;
  st <- get ;;
  match ins_chatRoomId messageData, ins_senderId messageData, ins_content messageData with
  | Some room, Some sender, Some text =>
      if hasNul text || hasNul (ins_originalLanguage messageData) then
        throw "invalid byte sequence"
      else if hasMessage (uuid w) (db_messages st) then throw "duplicate key"
      else if negb (hasChatRoom room (db_chatRooms st)) then throw "foreign key violation"
      else if negb (hasUser sender (db_users st)) then throw "foreign key violation"
      else
        let message := mkMessage (uuid w) room sender (toWellFormed text)
                                 (toWellFormed (ins_originalLanguage messageData))
                                 (now w) in
        modify (withMessages (db_messages st ++ [message])) ;;;
        ret message
  | _, _, _ => throw "not-null violation"
  end.

(** ** translationService.ts *)

Record TranslationResult := mkTranslationResult {
  translatedText : option string;
  sourceLanguage : option string;
  targetLanguage : option string
}.

(** [v === 200] *)
Definition strictEq200 (v : option nat) : bool :=
  match v with
  | Some n => Nat.eqb n 200
  | None => false
  end.

(** [response.ok] *)
Definition responseOk (status : nat) : bool := Nat.leb 200 status && Nat.leb status 299.

(** [encodeURIComponent(text)] throws a URIError on a lone surrogate;
    [undefined] is first converted to the string "undefined".  The encoded
    text goes into the request, whose answer the [World] holds. *)
Definition encodeURIComponent (text : option string) : Result unit :=
  match text with
  | Some s => if hasLoneSurrogate s then Throw "URIError" else Ok tt
  | None => Ok tt
  end.

(** Every exception raised inside the [try], the URIError of the first line
    included, is replaced by the one error ['Failed to translate text']. *)
Definition translateText (w : World) (text sourceLang targetLang : option string)
    : Result TranslationResult :=
  match encodeURIComponent text with
  | Throw _ => Throw "Failed to translate text"
  | Ok _ =>
      match apiReply w with
      | NetworkFailure => Throw "Failed to translate text"
      | HttpResponse status body =>
          if negb (responseOk status) then Throw "Failed to translate text"
          else
            match body with
            | None => Throw "Failed to translate text"
            | Some data =>
                if negb (strictEq200 (responseStatus data)) then
                  Throw "Failed to translate text"
                else
                  match responseData data with
                  | Some text' => Ok (mkTranslationResult text' sourceLang targetLang)
                  | None => Throw "Failed to translate text"  (* TypeError *)
                  end
            end
      end
  end.

(** ** chatService.ts *)

(** [this.users], a [Map]: [get], [set] (an existing key keeps its place),
    [delete], and the assignment [user.chatRoomId = v] to the object stored
    under a key. *)
Fixpoint mapGet (k : string) (m : list (string * ChatUser)) : option ChatUser :=
  match m with
  | [] => None
  | (k', v) :: m' => if String.eqb k' k then Some v else mapGet k m'
  end.

Fixpoint mapSet (k : string) (v : ChatUser) (m : list (string * ChatUser))
    : list (string * ChatUser) :=
  match m with
  | [] => [(k, v)]
  | (k', v') :: m' => if String.eqb k' k then (k, v) :: m' else (k', v') :: mapSet k v m'
  end.

Definition mapDelete (k : string) (m : list (string * ChatUser)) : list (string * ChatUser) :=
  filter (fun e => negb (String.eqb (fst e) k)) m.

Definition setChatRoomId (v : option string) (u : ChatUser) : ChatUser :=
  mkChatUser (userId u) (socket u) v (preferredLanguage u).

Definition mapAssign (k : string) (v : option string) (m : list (string * ChatUser))
    : list (string * ChatUser) :=
  map (fun e => if String.eqb (fst e) k then (fst e, setChatRoomId v (snd e)) else e) m.

(** [this.users.get(userId)] where [userId] may be [undefined]. *)
Definition usersGet (key : option string) : M (option ChatUser) :=
  st <- get ;;
  ret (match key with Some k => mapGet k (users st) | None => None end).

Definition isOpen (s : Socket) (st : State) : bool :=
  existsb (Nat.eqb s) (openSockets st).

Definition send (s : Socket) (frame : ChatMessage) : M unit :=
  st <- get ;;
  if isOpen s st then modify (withWire (wire st ++ [(s, frame)])) else ret tt.

Definition sendToUser (key : option string) (frame : ChatMessage) : M unit :=
  user <- usersGet key ;;
  match user with
  | Some user => send (socket user) frame
  | None => ret tt
  end.

Definition sendError (s : Socket) (error : string) : M unit :=
  send s (ErrorFrame error).

(** [`${d?.firstName || ''} ${d?.lastName || ''}`.trim() || 'Anonymous'] *)
Definition displayName (details : option User) : string :=
  let first := match details with Some d => orElse (firstName d) "" | None => "" end in
  let last := match details with Some d => orElse (lastName d) "" | None => "" end in
  orElse (Some (trim (first ++ " " ++ last))) "Anonymous".

(** [chatRoom.user1Id === userId ? chatRoom.user2Id : chatRoom.user1Id] *)
Definition otherUserIdOf (chatRoom : ChatRoom) (key : option string) : option string :=
  if strictEq (Some (user1Id chatRoom)) key then user2Id chatRoom
  else Some (user1Id chatRoom).

Definition matchUsers (w : World) (key : string) : M unit :=
  user <- usersGet (Some key) ;;
  match user with
  | None => ret tt
  | Some user =>
      tryCatch
        (chatRoom <- findOrCreateChatRoom w key ;;
         modify (fun st => withUsers (mapAssign key (Some (id chatRoom)) (users st)) st) ;;;
         match truthy (user2Id chatRoom) with
         | Some user2 =>
             let otherUserId :=
               if String.eqb (user1Id chatRoom) key then user2 else user1Id chatRoom in
             otherUser <- usersGet (Some otherUserId) ;;
             match otherUser with
             | Some otherUser =>
                 modify (fun st =>
                   withUsers (mapAssign otherUserId (Some (id chatRoom)) (users st)) st) ;;;
                 userDetails <- getUser w key ;;
                 otherUserDetails <- getUser w otherUserId ;;
                 sendToUser (Some key)
                   (UserJoinedFrame (id chatRoom) otherUserId
                      (displayName otherUserDetails) (preferredLanguage otherUser)) ;;;
                 sendToUser (Some otherUserId)
                   (UserJoinedFrame (id chatRoom) key
                      (displayName userDetails) (preferredLanguage user))
             | None => ret tt
             end
         | None =>
             sendToUser (Some key) (WaitingFrame "Waiting for another user to join...")
         end)
        (fun _ => sendError (socket user) "Failed to join chat")
  end.

Definition handleUserJoin (w : World) (s : Socket) (message : ClientMessage) : M unit :=
  match truthy (m_userId message) with
  | None => sendError s "User ID is required"
  | Some key =>
      user <- getUser w key ;;
      match user with
      | None => sendError s "User not found"
      | Some user =>
          let chatUser :=
            mkChatUser key s None
              (orElse (m_preferredLanguage message) (user_preferredLanguage user)) in
          modify (fun st => withUsers (mapSet key chatUser (users st)) st) ;;;
          matchUsers w key
      end
  end.

Definition handleSendMessage (w : World) (s : Socket) (message : ClientMessage) : M unit :=
  let key := m_userId message in
  let content := m_content message in
  let room := m_chatRoomId message in
  user <- usersGet key ;;
  match user with
  | None => sendError s "Invalid chat room"
  | Some user =>
      if negb (strictEq (chatRoomId user) room) then sendError s "Invalid chat room"
      else
        tryCatch
          (savedMessage <- createMessage w
             (mkInsertMessage room key content (preferredLanguage user)) ;;
           chatRoom <- getChatRoom w room ;;
           match chatRoom with
           | None => sendError s "Chat room not found"
           | Some chatRoom =>
               let otherUserId := otherUserIdOf chatRoom key in
               let messageToSend :=
                 MessageFrame room key content (preferredLanguage user)
                              (msg_createdAt savedMessage) in
               sendToUser key messageToSend ;;;
               match truthy otherUserId with
               | Some other => sendToUser (Some other) messageToSend
               | None => ret tt
               end
           end)
          (fun _ => sendError s "Failed to send message")
  end.

Definition handleTranslateMessage (w : World) (s : Socket) (message : ClientMessage)
    : M unit :=
  tryCatch
    (translation <- await (translateText w (m_content message) (m_sourceLanguage message)
                                         (m_targetLanguage message)) ;;
     sendToUser (m_userId message)
       (TranslationFrame (translatedText translation) (m_sourceLanguage message)
                         (m_targetLanguage message)))
    (fun _ => sendError s "Failed to translate message").

Definition handleTyping (w : World) (s : Socket) (message : ClientMessage) : M unit :=
  let key := m_userId message in
  let room := m_chatRoomId message in
  user <- usersGet key ;;
  match user with
  | None => ret tt
  | Some user =>
      if negb (strictEq (chatRoomId user) room) then ret tt
      else
        chatRoom <- getChatRoom w room ;;
        match chatRoom with
        | None => ret tt
        | Some chatRoom =>
            match truthy (otherUserIdOf chatRoom key) with
            | Some other => sendToUser (Some other) (TypingFrame key (m_isTyping message))
            | None => ret tt
            end
        end
  end.

Definition handleLeaveChat (w : World) (s : Socket) (message : ClientMessage) : M unit :=
  let key := m_userId message in
  let room := m_chatRoomId message in
  tryCatch
    (endChatRoom w room ;;;
     chatRoom <- getChatRoom w room ;;
     match chatRoom with
     | Some chatRoom =>
         match truthy (otherUserIdOf chatRoom key) with
         | Some other =>
             sendToUser (Some other) (UserLeftFrame "The other user has left the chat")
         | None => ret tt
         end
     | None => ret tt
     end ;;;
     user <- usersGet key ;;
     match user, key with
     | Some _, Some k =>
         modify (fun st => withUsers (mapAssign k None (users st)) st)
     | _, _ => ret tt
     end)
    (fun _ => ret tt).

Definition envelope (type key room : option string) : ClientMessage :=
  mkClientMessage type key None None room None None None.

(** [handleDisconnection].  The source starts [handleLeaveChat] for an entry
    without awaiting it and deletes the entry at once, so each leave
    continues after the entries of the socket are gone. *)
Definition handleDisconnection (w : World) (s : Socket) : M unit :=
  st <- get ;;
  let closing := filter (fun e => Nat.eqb (socket (snd e)) s) (users st) in
  modify (withUsers (filter (fun e => negb (Nat.eqb (socket (snd e)) s)) (users st))) ;;;
  forEach closing (fun e =>
    match truthy (chatRoomId (snd e)) with
    | Some _ => handleLeaveChat w s (envelope None (Some (fst e)) (chatRoomId (snd e)))
    | None => ret tt
    end).

Definition handleMessage (w : World) (s : Socket) (message : ClientMessage) : M unit :=
  match m_type message with
  | Some "join" => handleUserJoin w s message
  | Some "send_message" => handleSendMessage w s message
  | Some "translate_message" => handleTranslateMessage w s message
  | Some "typing" => handleTyping w s message
  | Some "leave_chat" => handleLeaveChat w s message
  | _ => sendError s "Unknown message type"
  end.

(** [socket.on('message')]: [data] is [None] when [JSON.parse] throws. *)
Definition onMessage (w : World) (s : Socket) (data : option ClientMessage) : M unit :=
  tryCatch
    (match data with
     | Some message => handleMessage w s message
     | None => throw "SyntaxError"
     end)
    (fun _ => sendError s "Invalid message format").

(** ** Events of the server *)

Inductive Event :=
| Connection (s : Socket)
| Incoming (s : Socket) (data : option ClientMessage) (w : World)
| Close (s : Socket) (w : World).

Definition step (st : State) (ev : Event) : State :=
  match ev with
  | Connection s => withOpenSockets (s :: openSockets st) st
  | Incoming s data w => snd (onMessage w s data st)
  | Close s w =>
      snd (handleDisconnection w s
             (withOpenSockets (filter (fun s' => negb (Nat.eqb s' s)) (openSockets st)) st))
  end.

Definition run (st : State) (evs : list Event) : State := fold_left step evs st.

(** A fresh server over a user directory: nobody registered, empty
    [chat_rooms] and [messages], no connection. *)
Definition initialState (directory : list User) : State :=
  mkState [] directory [] [] [] [].

Inductive reachable : State -> Prop :=
| reachable_init : forall directory, reachable (initialState directory)
| reachable_step : forall st ev, reachable st -> reachable (step st ev).

(** The three ways [findOrCreateChatRoom] can end on a table whose keys are
    unique: refused with the state as it was, joined to the first waiting row
    of the scan, or a new waiting row. *)
Inductive MatchOutcome (w : World) (user : string) (st : State)
  : Result ChatRoom -> State -> Prop :=
| Refused : forall e, MatchOutcome w user st (Throw e) st
| Paired : forall existing rest,
    filter (waitingFor user) (scanRooms (db_chatRooms st)) = existing :: rest ->
    hasUser user (db_users st) = true ->
    MatchOutcome w user st (Ok (setUser2Id user existing))
      (withChatRooms (updateWhereId (id existing) (setUser2Id user) (db_chatRooms st)) st)
| NowWaiting :
    filter (waitingFor user) (scanRooms (db_chatRooms st)) = [] ->
    hasChatRoom (uuid w) (db_chatRooms st) = false ->
    hasUser user (db_users st) = true ->
    MatchOutcome w user st (Ok (mkChatRoom (uuid w) user None true (now w) None))
      (withChatRooms (db_chatRooms st ++ [mkChatRoom (uuid w) user None true (now w) None]) st).

End Server.

(** ** Frames put on the wire

    What [sendToUser] and [sendError] add to the wire in a given state: one
    frame when the addressee has a registry entry (for [sendToUser]) and the
    socket is open, nothing otherwise. *)
Definition delivered (st : State) (key : option string) (frame : ChatMessage)
    : list (Socket * ChatMessage) :=
  match key with
  | Some k =>
      match mapGet k (users st) with
      | Some u => if isOpen (socket u) st then [(socket u, frame)] else []
      | None => []
      end
  | None => []
  end.

Definition reported (st : State) (s : Socket) (error : string)
    : list (Socket * ChatMessage) :=
  if isOpen s st then [(s, ErrorFrame error)] else [].

(** The test of [handleSendMessage] and [handleTyping]: the sender has a
    registry entry and it is bound to the session named in the envelope. *)
Definition belongsTo (st : State) (key room : option string) : bool :=
  match key with
  | Some k =>
      match mapGet k (users st) with
      | Some u => strictEq (chatRoomId u) room
      | None => false
      end
  | None => false
  end.



(** The text cannot be put into a request: it holds a lone surrogate. *)
Definition unencodable (text : option string) : bool :=
  match text with
  | Some s => hasLoneSurrogate s
  | None => false
  end.

(** The registry entry of a user: the connection it is registered on, and
    the session it is bound to. *)
Definition registeredOn (key : string) (s : Socket) (language : string) (st : State) : Prop :=
  exists entry,
    mapGet key (users st) = Some entry /\
    userId entry = key /\ socket entry = s /\ preferredLanguage entry = language.

Definition boundTo (key : string) (room : string) (st : State) : Prop :=
  exists entry, mapGet key (users st) = Some entry /\ chatRoomId entry = Some room.

(** ** Scenarios

    The directory, worlds and envelopes of the examples. *)

Definition directory : list User :=
  [ mkUser "ana" (Some "Ana") (Some "Silva") "en-GB";
    mkUser "ben" (Some "Ben") None "fr-FR";
    mkUser "cleo" None None "de-DE" ].

(** A world in which every statement succeeds. *)
Definition calm (t : Time) (key : string) : World :=
  mkWorld t key (fun _ => false) NetworkFailure.

Definition join (user : string) : ClientMessage :=
  envelope (Some "join") (Some user) None.

Definition leave (user room : string) : ClientMessage :=
  envelope (Some "leave_chat") (Some user) (Some room).

Definition typing (user room : string) : ClientMessage :=
  mkClientMessage (Some "typing") (Some user) None None (Some room) None None (Some true).

Definition say (user room text : string) : ClientMessage :=
  mkClientMessage (Some "send_message") (Some user) None (Some text) (Some room)
                  None None None.

(** ana and ben connect and join: ana waits in r0, ben is paired with her. *)
Definition anaAndBen : list Event :=
  [ Connection 1; Connection 2;
    Incoming 1 (Some (join "ana")) (calm 1 "r0");
    Incoming 2 (Some (join "ben")) (calm 2 "r1") ].

(** Two waiting sessions of two users, r0 created before r1. *)
Definition roomOfAna : ChatRoom := mkChatRoom "r0" "ana" None true 1 None.
Definition roomOfBen : ChatRoom := mkChatRoom "r1" "ben" None true 2 None.

Definition twoWaiting : State :=
  mkState [] directory [roomOfAna; roomOfBen] [] [] [].

(** ana joins twice: she waits in r0 and, her entry replaced, in r1 too. *)
Definition anaTwice : list Event :=
  [ Connection 1;
    Incoming 1 (Some (join "ana")) (calm 1 "r0");
    Incoming 1 (Some (join "ana")) (calm 2 "r1") ].

(** ana and ben are paired in r0, then ana leaves at time 5. *)
Definition anaLeft : list Event :=
  anaAndBen ++ [ Incoming 1 (Some (leave "ana" "r0")) (calm 5 "r2") ].

(** ana and ben are paired in r0; a third connection opens. *)
Definition anaBenAndVisitor : list Event := anaAndBen ++ [ Connection 3 ].

(** A world in which the insertion into [messages] is refused. *)
Definition logDown (t : Time) (key : string) : World :=
  mkWorld t key (fun op => match op with InsertMessages => true | _ => false end)
          NetworkFailure.

(** ana, registered on socket 1 and paired with ben, joins again from
    socket 7. *)
Definition anaBenAndNewSocket : list Event := anaAndBen ++ [ Connection 7 ].

(** ana and ben are paired in r0, and cleo waits in r1. *)
Definition cleoWaits : list Event :=
  anaAndBen ++ [ Connection 3; Incoming 3 (Some (join "cleo")) (calm 3 "r1") ].



(** The high surrogate U+D800 on its own, and the no-break space U+00A0. *)
Definition loneSurrogate : string := bytes [237; 160; 128].

Definition noBreakSpace : string := bytes [194; 160].

(** A directory whose names hold white space only at their ends: the first
    name of dan is one no-break space and his last name one space; eve is
    written with a no-break space before and an ideographic space, U+3000,
    after. *)
Definition blankNames : list User :=
  [ mkUser "dan" (Some noBreakSpace) (Some " ") "pt-PT";
    mkUser "eve" (Some (String.append noBreakSpace "Eve")) (Some (bytes [227; 128; 128]))
           "it-IT" ].

(** ** Properties of the session table *)

(** The primary key of [chat_rooms], and the absence of self-pairing. *)
Definition keysUnique (t : list ChatRoom) : Prop := NoDup (map id t).

Definition noSelfPair (t : list ChatRoom) : Prop :=
  forall r, In r t -> user2Id r <> Some (user1Id r).

Definition roomsInv (st : State) : Prop :=
  keysUnique (db_chatRooms st) /\ noSelfPair (db_chatRooms st).

(** A computation keeps a property of the state, whether it returns or
    throws. *)
Definition preserves {A} (P : State -> Prop) (m : M A) : Prop :=
  forall st, P st -> P (snd (m st)).

(** ** Properties of the registry, the sessions and the log *)

(** A user takes part in a session as its first or second participant. *)
Definition participant (k : string) (room : ChatRoom) : Prop :=
  user1Id room = k \/ user2Id room = Some k.

(** A later version of a row: same key, first participant and creation
    time; a second participant, once set, stays; an ended row stays ended. *)
Definition succeeds (old new : ChatRoom) : Prop :=
  id new = id old /\
  user1Id new = user1Id old /\
  createdAt new = createdAt old /\
  (forall u, user2Id old = Some u -> user2Id new = Some u) /\
  (isActive old = false -> isActive new = false).

Definition roomsAdvance (t t' : list ChatRoom) : Prop :=
  forall old, In old t -> exists new, In new t' /\ succeeds old new.

(** [this.users] is a map: one entry per key, stored under its own user id. *)
Definition registryShape (us : list (string * ChatUser)) : Prop :=
  NoDup (map fst us) /\ forall k e, In (k, e) us -> userId e = k.

(** An entry bound to a session names a row in which its user takes part. *)
Definition bindingsSound (us : list (string * ChatUser)) (t : list ChatRoom) : Prop :=
  forall k e r,
    In (k, e) us -> chatRoomId e = Some r ->
    exists room, In room t /\ id room = r /\ participant k room.

(** A row that waits for a second participant. *)
Definition isWaiting (r : ChatRoom) : bool :=
  match user2Id r with None => true | Some _ => false end && isActive r.

Definition oneWaits (t : list ChatRoom) : Prop :=
  forall a b, In a t -> In b t -> isWaiting a = true -> isWaiting b = true ->
              user1Id a = user1Id b.

(** A stored message was sent by a participant of its session. *)
Definition logSound (log : list Message) (t : list ChatRoom) : Prop :=
  forall m, In m log ->
    exists room, In room t /\ id room = msg_chatRoomId m /\
                 participant (msg_senderId m) room.

Definition serverInv (st : State) : Prop :=
  roomsInv st /\
  registryShape (users st) /\
  bindingsSound (users st) (db_chatRooms st) /\
  oneWaits (db_chatRooms st) /\
  logSound (db_messages st) (db_chatRooms st).

(** The invariant, and the session table seen as a later version of [t0]. *)
Definition advInv (t0 : list ChatRoom) (st : State) : Prop :=
  serverInv st /\ roomsAdvance t0 (db_chatRooms st).

(** The part of the state the invariant speaks about. *)
Definition core (st : State) : list (string * ChatUser) * list ChatRoom * list Message :=
  (users st, db_chatRooms st, db_messages st).

(** ** storage.ts: message history and dictionary

    The remaining queries of [DatabaseStorage].  They read and write the
    tables [messages] and [dictionary_entries] only; [refused] says that the
    driver refuses the statement.  A query with [orderBy(desc(createdAt))]
    returns the selected rows newest first, rows of equal time in the order
    of the scan. *)

Class ScanOrder (A : Type) := mkScanOrder {
  scan : list A -> list A;
  scan_perm : forall t, Permutation (scan t) t
}.

Fixpoint insertByDesc {A} (time : A -> Time) (x : A) (l : list A) : list A :=
  match l with
  | [] => [x]
  | y :: l' =>
      if Nat.leb (time y) (time x) then x :: y :: l'
      else y :: insertByDesc time x l'
  end.

Definition orderByDesc {A} (time : A -> Time) (l : list A) : list A :=
  fold_right (insertByDesc time) [] l.

Definition newerFirst {A} (time : A -> Time) (a b : A) : Prop := time b <= time a.

Definition getMessages {order : ScanOrder Message} (refused : bool) (room : string)
    : M (list Message) :=
  fun st =>
    if refused then (Throw "database error", st)
    else (Ok (orderByDesc msg_createdAt
                (filter (fun m => String.eqb (msg_chatRoomId m) room)
                        (scan (db_messages st)))), st).

Record DictionaryEntry := mkDictionaryEntry {
  entry_id : string;
  entry_userId : string;
  entry_originalText : string;
  entry_translatedText : string;
  entry_sourceLanguage : string;
  entry_targetLanguage : string;
  entry_createdAt : Time
}.




(** [select ... where(eq(userId, userId)).orderBy(desc(createdAt))] *)
Definition getDictionaryEntries {order : ScanOrder DictionaryEntry} (refused : bool)
    (user : string) (t : list DictionaryEntry) : Result (list DictionaryEntry) :=
  if refused then Throw "database error"
  else Ok (orderByDesc entry_createdAt
             (filter (fun e => String.eqb (entry_userId e) user) (scan t))).

(** [delete ... where(and(eq(id, id), eq(userId, userId)))] *)
Definition deleteDictionaryEntry (refused : bool) (k user : string)
    (t : list DictionaryEntry) : Result unit * list DictionaryEntry :=
  if refused then (Throw "database error", t)
  else
    (Ok tt,
     filter (fun e => negb (String.eqb (entry_id e) k && String.eqb (entry_userId e) user)) t).

(** ** routes.ts

    The handlers behind [isAuthenticated]: [user] is [req.user.claims.sub]. *)

Inductive Response (A : Type) :=
| Json (body : A)
| Status (code : nat) (message : string).
Arguments Json {A} body.
Arguments Status {A} code message.



Definition getDictionary {order : ScanOrder DictionaryEntry} (refused : bool)
    (user : string) (t : list DictionaryEntry) : Response (list DictionaryEntry) :=
  match getDictionaryEntries refused user t with
  | Ok entries => Json entries
  | Throw _ => Status 500 "Failed to fetch dictionary entries"
  end.


Definition deleteDictionary (refused : bool) (user k : string)
    (t : list DictionaryEntry) : Response bool * list DictionaryEntry :=
  match deleteDictionaryEntry refused k user t with
  | (Ok _, t') => (Json true, t')
  | (Throw _, t') => (Status 500 "Failed to delete dictionary entry", t')
  end.


(** ** translationService.ts: [detectLanguage]

    The answer to the detection request: [matches] is [None] when the field
    is absent or falsy, and otherwise lists the [source] of each match. *)
Record DetectBody := mkDetectBody {
  matches : option (list (option string))
}.

Inductive DetectOutcome :=
| DetectFailure                                           (* fetch rejects *)
| DetectResponse (status : nat) (body : option DetectBody). (* None: json() rejects *)

(** Every exception raised inside the [try], the URIError of the first line
    included, ends in the fallback. *)
Definition detectLanguage (reply : DetectOutcome) (text : option string) : string :=
  match encodeURIComponent text with
  | Throw _ => "en-GB"
  | Ok _ =>
      match reply with
      | DetectFailure => "en-GB"
      | DetectResponse status body =>
          if negb (responseOk status) then "en-GB"
          else
            match body with
            | None => "en-GB"
            | Some data =>
                match matches data with
                | Some (first :: _) => orElse first "en-GB"
                | _ => "en-GB"
                end
            end
      end
  end.

(** POST /api/detect-language *)
Definition postDetectLanguage (reply : DetectOutcome) (text : option string)
    : Response string :=
  match truthy text with
  | Some _ => Json (detectLanguage reply text)
  | None => Status 400 "Text is required"
  end.

(** Entries and messages of the examples. *)
Definition insertionScan (A : Type) : ScanOrder A :=
  mkScanOrder A (fun t => t) (@Permutation_refl A).




(** Worlds in which one kind of statement is refused. *)
Definition lookupDown (t : Time) (key : string) : World :=
  mkWorld t key (fun op => match op with SelectChatRooms => true | _ => false end)
          NetworkFailure.

Definition updateDown (t : Time) (key : string) : World :=
  mkWorld t key (fun op => match op with UpdateChatRooms => true | _ => false end)
          NetworkFailure.

Definition directoryDown (t : Time) (key : string) : World :=
  mkWorld t key (fun op => match op with SelectUsers => true | _ => false end)
          NetworkFailure.

(** ana and ben are paired in r0 and ana has said hello. *)
Definition anaSaidHello : list Event :=
  anaAndBen ++ [ Incoming 1 (Some (say "ana" "r0" "hello")) (calm 3 "m0") ].

(** ana waits in r0; her socket closes while the database refuses updates,
    so that r0 keeps waiting without her; then a new connection opens. *)
Definition anaDropped : list Event :=
  [ Connection 1;
    Incoming 1 (Some (join "ana")) (calm 1 "r0");
    Close 1 (updateDown 2 "r1");
    Connection 3 ].

(* ================================================================== *)
(** * Proofs *)

Section Lists.

Lemma Permutation_filter_compat [A : Type] (p : A -> bool) [l l' : list A] :
  Permutation l l' -> Permutation (filter p l) (filter p l').
Proof.
  induction 1; simpl.
  - constructor.
  - destruct (p x); auto.
  - destruct (p x), (p y); auto. constructor.
  - eapply Permutation_trans; eassumption.
Qed.

Lemma filter_none [A : Type] (p : A -> bool) (l : list A) :
  (forall x, In x l -> p x = false) -> filter p l = [].
Proof.
  induction l as [|a l IH]; simpl; intros H; [reflexivity|].
  rewrite (H a) by auto. apply IH. intros x Hx. apply H. auto.
Qed.

Lemma key_lookup_unique (t : list ChatRoom) (r : ChatRoom) :
  keysUnique t -> In r t ->
  filter (fun x => String.eqb (id x) (id r)) t = [r].
Proof.
  unfold keysUnique. induction t as [|a t IH]; simpl; intros Hnd Hin; [contradiction|].
  inversion Hnd as [|? ? Hnotin Hnd']; subst.
  destruct Hin as [->|Hin].
  - rewrite String.eqb_refl. f_equal.
    apply filter_none. intros x Hx.
    apply String.eqb_neq. intros Heq. apply Hnotin. rewrite <- Heq.
    apply in_map. exact Hx.
  - destruct (String.eqb (id a) (id r)) eqn:E.
    + apply String.eqb_eq in E. exfalso. apply Hnotin. rewrite E.
      apply in_map. exact Hin.
    + apply IH; assumption.
Qed.

Lemma same_key_same_row (t : list ChatRoom) (a b : ChatRoom) :
  keysUnique t -> In a t -> In b t -> id a = id b -> a = b.
Proof.
  intros Hk Ha Hb Heq.
  pose proof (key_lookup_unique t b Hk Hb) as Hf.
  assert (Hin : In a (filter (fun x => String.eqb (id x) (id b)) t)).
  { apply filter_In. split; [exact Ha|]. apply String.eqb_eq. exact Heq. }
  rewrite Hf in Hin. destruct Hin as [->|[]]. reflexivity.
Qed.

Lemma hasChatRoom_false (k : string) (t : list ChatRoom) :
  hasChatRoom k t = false -> ~ In k (map id t).
Proof.
  unfold hasChatRoom. induction t as [|a t IH]; simpl; intros H; [tauto|].
  apply orb_false_iff in H. destruct H as [Ha Ht].
  apply String.eqb_neq in Ha. intros [E|E]; [congruence|]. exact (IH Ht E).
Qed.

Lemma updateWhereId_keys (k : string) (f : ChatRoom -> ChatRoom) (t : list ChatRoom) :
  (forall r, id (f r) = id r) -> map id (updateWhereId k f t) = map id t.
Proof.
  intros Hf. unfold updateWhereId. rewrite map_map. apply map_ext.
  intros r. destruct (String.eqb (id r) k); auto.
Qed.

Lemma updateWhereId_In (k : string) (f : ChatRoom -> ChatRoom) (t : list ChatRoom)
    (r' : ChatRoom) :
  In r' (updateWhereId k f t) ->
  exists r, In r t /\ ((id r = k /\ r' = f r) \/ (id r <> k /\ r' = r)).
Proof.
  unfold updateWhereId. rewrite in_map_iff. intros [r [E Hin]].
  exists r. split; [exact Hin|].
  destruct (String.eqb (id r) k) eqn:Ek.
  - apply String.eqb_eq in Ek. left. auto.
  - apply String.eqb_neq in Ek. right. auto.
Qed.

Lemma updateWhereId_hit (k : string) (f : ChatRoom -> ChatRoom) (t : list ChatRoom)
    (r : ChatRoom) :
  In r t -> id r = k -> In (f r) (updateWhereId k f t).
Proof.
  intros Hin Hk. unfold updateWhereId. apply in_map_iff. exists r.
  split; [|exact Hin]. apply String.eqb_eq in Hk. rewrite Hk. reflexivity.
Qed.

Lemma updateWhereId_miss (k : string) (f : ChatRoom -> ChatRoom) (t : list ChatRoom)
    (r : ChatRoom) :
  In r t -> id r <> k -> In r (updateWhereId k f t).
Proof.
  intros Hin Hk. unfold updateWhereId. apply in_map_iff. exists r.
  split; [|exact Hin]. apply String.eqb_neq in Hk. rewrite Hk. reflexivity.
Qed.

End Lists.

Section Monad.

Variable P : State -> Prop.

Lemma preserves_ret (A : Type) (a : A) : preserves P (ret a).
Proof. intros st H. exact H. Qed.

Lemma preserves_throw (A : Type) (e : string) : preserves P (@throw A e).
Proof. intros st H. exact H. Qed.

Lemma preserves_await (A : Type) (r : Result A) : preserves P (await r).
Proof. intros st H. exact H. Qed.

Lemma preserves_get : preserves P get.
Proof. intros st H. exact H. Qed.

Lemma preserves_modify (f : State -> State) :
  (forall st, P st -> P (f st)) -> preserves P (modify f).
Proof. intros Hf st H. apply Hf. exact H. Qed.

Lemma preserves_statement (w : World) (op : DbOp) : preserves P (statement w op).
Proof. intros st H. unfold statement. destruct (dbFault w op); exact H. Qed.

Lemma preserves_bind (A B : Type) (m : M A) (k : A -> M B) :
  preserves P m -> (forall a, preserves P (k a)) -> preserves P (bind m k).
Proof.
  intros Hm Hk st H. unfold bind. specialize (Hm st H).
  destruct (m st) as [[a|e] st1]; simpl in *.
  - apply Hk. exact Hm.
  - exact Hm.
Qed.

Lemma preserves_tryCatch (A : Type) (m : M A) (h : string -> M A) :
  preserves P m -> (forall e, preserves P (h e)) -> preserves P (tryCatch m h).
Proof.
  intros Hm Hh st H. unfold tryCatch. specialize (Hm st H).
  destruct (m st) as [[a|e] st1]; simpl in *.
  - exact Hm.
  - apply Hh. exact Hm.
Qed.

Lemma preserves_forEach (A : Type) (l : list A) (f : A -> M unit) :
  (forall x, preserves P (f x)) -> preserves P (forEach l f).
Proof.
  intros Hf. induction l as [|x l IH]; simpl.
  - apply preserves_ret.
  - apply preserves_bind; [apply Hf|]. intros _. exact IH.
Qed.

End Monad.

(** Steps shared by the preservation proofs: split a computation along its
    binds, handlers and case distinctions. *)
Ltac split_step :=
  first
    [ apply preserves_ret
    | apply preserves_throw
    | apply preserves_await
    | apply preserves_get
    | apply preserves_statement
    | apply preserves_bind; [ | intro ]
    | apply preserves_tryCatch; [ | intro ]
    | apply preserves_forEach; intro
    | match goal with
      | |- preserves _ (match ?x with _ => _ end) => destruct x
      | |- preserves _ (if ?x then _ else _) => destruct x
      end ].

Ltac split_computation := repeat split_step.

Section Registry.

Lemma mapAssign_absent (k : string) (v : option string) (m : list (string * ChatUser)) :
  mapGet k m = None -> mapAssign k v m = m.
Proof.
  induction m as [|[k' u] m IH]; simpl; intros H; [reflexivity|].
  destruct (String.eqb k' k); [discriminate|]. rewrite IH by exact H. reflexivity.
Qed.

Lemma mapGet_mapAssign_other (k k' : string) (v : option string) (m : list (string * ChatUser)) :
  k <> k' -> mapGet k' (mapAssign k v m) = mapGet k' m.
Proof.
  intros Hne. induction m as [|[k0 u] m IH]; simpl; [reflexivity|].
  destruct (String.eqb k0 k) eqn:E0; simpl.
  - apply String.eqb_eq in E0. subst k0.
    apply String.eqb_neq in Hne. rewrite Hne. exact IH.
  - destruct (String.eqb k0 k'); [reflexivity|exact IH].
Qed.

Lemma mapGet_mapAssign_same (k : string) (v : option string) (m : list (string * ChatUser)) :
  mapGet k (mapAssign k v m) = option_map (setChatRoomId v) (mapGet k m).
Proof.
  induction m as [|[k0 u] m IH]; simpl; [reflexivity|].
  destruct (String.eqb k0 k) eqn:E0; simpl; rewrite E0; [reflexivity|exact IH].
Qed.

Lemma mapGet_mapSet_same (k : string) (u : ChatUser) (m : list (string * ChatUser)) :
  mapGet k (mapSet k u m) = Some u.
Proof.
  induction m as [|[k0 u0] m IH]; simpl.
  - rewrite String.eqb_refl. reflexivity.
  - destruct (String.eqb k0 k) eqn:E0; simpl.
    + rewrite String.eqb_refl. reflexivity.
    + rewrite E0. exact IH.
Qed.

End Registry.

Ltac run_monad :=
  unfold bind, ret, get, modify, throw, tryCatch, statement, await; simpl.

Section Wire.

Lemma withWire_same (st : State) : withWire (wire st ++ []) st = st.
Proof. destruct st. unfold withWire. simpl. rewrite app_nil_r. reflexivity. Qed.

Lemma bind_ok [A B : Type] (m : M A) (k : A -> M B) (st st1 : State) (a : A) :
  m st = (Ok a, st1) -> bind m k st = k a st1.
Proof. intros E. unfold bind. rewrite E. reflexivity. Qed.

Lemma bind_throw [A B : Type] (m : M A) (k : A -> M B) (st st1 : State) (e : string) :
  m st = (Throw e, st1) -> bind m k st = (Throw e, st1).
Proof. intros E. unfold bind. rewrite E. reflexivity. Qed.

Lemma sendToUser_wire (key : option string) (frame : ChatMessage) (st : State) :
  sendToUser key frame st = (Ok tt, withWire (wire st ++ delivered st key frame) st).
Proof.
  unfold sendToUser, usersGet, send, delivered. run_monad.
  destruct key as [k|]; simpl; [|rewrite withWire_same; reflexivity].
  destruct (mapGet k (users st)) as [u|]; simpl; [|rewrite withWire_same; reflexivity].
  destruct (isOpen (socket u) st); simpl; [reflexivity|].
  rewrite withWire_same. reflexivity.
Qed.

Lemma sendError_wire (s : Socket) (error : string) (st : State) :
  sendError s error st = (Ok tt, withWire (wire st ++ reported st s error) st).
Proof.
  unfold sendError, send, reported. run_monad.
  destruct (isOpen s st); simpl; [reflexivity|].
  rewrite withWire_same. reflexivity.
Qed.

Lemma delivered_withWire (l : list (Socket * ChatMessage)) (st : State)
    (key : option string) (frame : ChatMessage) :
  delivered (withWire l st) key frame = delivered st key frame.
Proof. reflexivity. Qed.

Lemma delivered_withMessages (l : list Message) (st : State)
    (key : option string) (frame : ChatMessage) :
  delivered (withMessages l st) key frame = delivered st key frame.
Proof. reflexivity. Qed.

End Wire.

Section MessageLog.

Lemma createMessage_stored (w : World) (d : InsertMessage) (st st1 : State) (saved : Message) :
  createMessage w d st = (Ok saved, st1) ->
  st1 = withMessages (db_messages st ++ [saved]) st /\
  ins_chatRoomId d = Some (msg_chatRoomId saved) /\
  ins_senderId d = Some (msg_senderId saved) /\
  option_map toWellFormed (ins_content d) = Some (msg_content saved) /\
  toWellFormed (ins_originalLanguage d) = msg_originalLanguage saved /\
  msg_createdAt saved = now w /\
  msg_id saved = uuid w.
Proof.
  unfold createMessage. run_monad.
  destruct (dbFault w InsertMessages); simpl; [discriminate|].
  destruct (ins_chatRoomId d) as [room|]; [|discriminate].
  destruct (ins_senderId d) as [sender|]; [|discriminate].
  destruct (ins_content d) as [text|]; [|discriminate].
  destruct (hasNul text || hasNul (ins_originalLanguage d)); [discriminate|].
  destruct (hasMessage (uuid w) (db_messages st)); [discriminate|].
  destruct (hasChatRoom room (db_chatRooms st)); simpl; [|discriminate].
  destruct (hasUser sender (db_users st)); simpl; [|discriminate].
  intros E. inversion E; subst. simpl. repeat split.
Qed.

Lemma createMessage_refused (w : World) (d : InsertMessage) (st st1 : State) (e : string) :
  createMessage w d st = (Throw e, st1) -> st1 = st.
Proof.
  unfold createMessage. run_monad.
  destruct (dbFault w InsertMessages); simpl; [intros E; inversion E; reflexivity|].
  destruct (ins_chatRoomId d) as [room|]; [|intros E; inversion E; reflexivity].
  destruct (ins_senderId d) as [sender|]; [|intros E; inversion E; reflexivity].
  destruct (ins_content d) as [text|]; [|intros E; inversion E; reflexivity].
  destruct (hasNul text || hasNul (ins_originalLanguage d));
    [intros E; inversion E; reflexivity|].
  destruct (hasMessage (uuid w) (db_messages st)); [intros E; inversion E; reflexivity|].
  destruct (hasChatRoom room (db_chatRooms st)); simpl; [|intros E; inversion E; reflexivity].
  destruct (hasUser sender (db_users st)); simpl; intros E; inversion E; reflexivity.
Qed.

(** An insertion that meets the constraints of the table goes through. *)
Lemma createMessage_runs (w : World) (room sender text language : string) (st : State) :
  dbFault w InsertMessages = false ->
  hasNul text = false ->
  hasNul language = false ->
  hasMessage (uuid w) (db_messages st) = false ->
  hasChatRoom room (db_chatRooms st) = true ->
  hasUser sender (db_users st) = true ->
  let saved := mkMessage (uuid w) room sender (toWellFormed text) (toWellFormed language)
                         (now w) in
  createMessage w (mkInsertMessage (Some room) (Some sender) (Some text) language) st
    = (Ok saved, withMessages (db_messages st ++ [saved]) st).
Proof.
  intros Hf Ht Hl Hm Hr Hu saved. unfold createMessage. run_monad.
  rewrite Hf. simpl. rewrite Ht, Hl, Hm, Hr, Hu. reflexivity.
Qed.

(** A text without a lone surrogate is stored as it is. *)
Lemma toWellFormed_same (s : string) : hasLoneSurrogate s = false -> toWellFormed s = s.
Proof.
  induction s as [|c1 s1 IH]; [reflexivity|].
  destruct s1 as [|c2 s2]; [reflexivity|].
  intros H. change (isSurrogate c1 c2 || hasLoneSurrogate (String c2 s2) = false) in H.
  apply orb_false_iff in H. destruct H as [H1 H2].
  change (toWellFormed (String c1 (String c2 s2)))
    with (if isSurrogate c1 c2 then
            match s2 with
            | String _ s3 => String.append (bytes [239; 191; 189]) (toWellFormed s3)
            | EmptyString => bytes [239; 191; 189]
            end
          else String c1 (toWellFormed (String c2 s2))).
  rewrite H1, (IH H2). reflexivity.
Qed.

End MessageLog.

Section Storage.
Context {db : RowOrder}.

Lemma scanRooms_In (t : list ChatRoom) (r : ChatRoom) :
  In r (scanRooms t) <-> In r t.
Proof.
  split; apply Permutation_in.
  - apply scanRooms_perm.
  - apply Permutation_sym, scanRooms_perm.
Qed.

(** A key identifies one row, whatever the order of the scan. *)
Lemma scan_lookup (t : list ChatRoom) (r : ChatRoom) :
  keysUnique t -> In r t ->
  filter (fun x => String.eqb (id x) (id r)) (scanRooms t) = [r].
Proof.
  intros Hk Hin.
  pose proof (Permutation_filter_compat (fun x => String.eqb (id x) (id r))
                (scanRooms_perm t)) as Hp.
  rewrite (key_lookup_unique t r Hk Hin) in Hp.
  apply Permutation_sym in Hp. apply Permutation_length_1_inv in Hp. exact Hp.
Qed.

Lemma waiting_row (user : string) (t : list ChatRoom) (e : ChatRoom) (rest : list ChatRoom) :
  filter (waitingFor user) (scanRooms t) = e :: rest ->
  In e t /\ user2Id e = None /\ isActive e = true /\ user1Id e <> user.
Proof.
  intros Hf.
  assert (Hin : In e (filter (waitingFor user) (scanRooms t))) by (rewrite Hf; left; reflexivity).
  apply filter_In in Hin. destruct Hin as [Hin Hw].
  apply (proj1 (scanRooms_In t e)) in Hin. unfold waitingFor in Hw.
  apply andb_true_iff in Hw. destruct Hw as [Hw Hne].
  apply andb_true_iff in Hw. destruct Hw as [Hnull Hact].
  apply negb_true_iff, String.eqb_neq in Hne.
  destruct (user2Id e); [discriminate|]. auto.
Qed.

Lemma findOrCreateChatRoom_outcome (w : World) (user : string) (st : State) :
  keysUnique (db_chatRooms st) ->
  MatchOutcome w user st (fst (findOrCreateChatRoom w user st))
                         (snd (findOrCreateChatRoom w user st)).
Proof.
  intros Hk. unfold findOrCreateChatRoom, createChatRoom, bind, statement, get, modify, ret, throw.
  destruct (dbFault w SelectChatRooms); simpl; [constructor|].
  destruct (filter (waitingFor user) (scanRooms (db_chatRooms st))) as [|e rest] eqn:Hf; simpl.
  - destruct (dbFault w InsertChatRooms); simpl; [constructor|].
    destruct (hasChatRoom (uuid w) (db_chatRooms st)) eqn:Hpk; simpl; [constructor|].
    destruct (hasUser user (db_users st)) eqn:Hfk; simpl; [|constructor].
    apply NowWaiting; assumption.
  - destruct (dbFault w UpdateChatRooms); simpl; [constructor|].
    destruct (hasUser user (db_users st)) eqn:Hfk; simpl; [|constructor].
    destruct (waiting_row user (db_chatRooms st) e rest Hf) as [Hin _].
    set (t' := updateWhereId (id e) (setUser2Id user) (db_chatRooms st)).
    assert (Hk' : keysUnique t').
    { unfold keysUnique, t'. rewrite updateWhereId_keys; [exact Hk|reflexivity]. }
    assert (Hin' : In (setUser2Id user e) t').
    { apply updateWhereId_hit; [exact Hin|reflexivity]. }
    pose proof (scan_lookup t' (setUser2Id user e) Hk' Hin') as Hl. simpl in Hl.
    rewrite Hl. simpl. eapply Paired; eassumption.
Qed.

Lemma findOrCreateChatRoom_keeps_rooms (w : World) (user : string) :
  preserves roomsInv (findOrCreateChatRoom w user).
Proof.
  intros st [Hk Hs].
  pose proof (findOrCreateChatRoom_outcome w user st Hk) as Ho.
  destruct Ho as [e | e rest Hf Hfk | Hf Hpk Hfk].
  - split; assumption.
  - destruct (waiting_row user (db_chatRooms st) e rest Hf) as [Hin [Hnull [Hact Hne]]].
    split; simpl.
    + unfold keysUnique. rewrite updateWhereId_keys; [exact Hk|reflexivity].
    + intros r' Hr'. apply updateWhereId_In in Hr'.
      destruct Hr' as [r [Hr [[Hid ->]|[Hid ->]]]].
      * assert (r = e) by (eapply same_key_same_row; eassumption). subst r.
        simpl. intros E. inversion E. congruence.
      * apply Hs. exact Hr.
  - split; simpl.
    + unfold keysUnique. rewrite map_app. simpl.
      eapply Permutation_NoDup; [apply Permutation_cons_append|].
      constructor; [|exact Hk]. apply hasChatRoom_false. exact Hpk.
    + intros r Hr. apply in_app_or in Hr. destruct Hr as [Hr|[<-|[]]].
      * apply Hs. exact Hr.
      * simpl. discriminate.
Qed.

Lemma endChatRoom_keeps_rooms (w : World) (key : option string) :
  preserves roomsInv (endChatRoom w key).
Proof.
  intros st [Hk Hs]. unfold endChatRoom, bind, statement, modify, ret.
  destruct (dbFault w UpdateChatRooms); simpl; [split; assumption|].
  destruct key as [k|]; simpl; [|split; assumption].
  unfold roomsInv; simpl. split.
  - unfold keysUnique. rewrite updateWhereId_keys; [exact Hk|reflexivity].
  - intros r' Hr'. apply updateWhereId_In in Hr'.
    destruct Hr' as [r [Hr [[_ ->]|[_ ->]]]]; [simpl|]; apply Hs; exact Hr.
Qed.

(** Statements and sends that leave [chat_rooms] alone. *)
Ltac untouched :=
  unfold getUser, getChatRoom, createMessage, sendToUser, sendError, send, usersGet;
  split_computation;
  apply preserves_modify; intros ? H; exact H.

Lemma getUser_keeps_rooms (w : World) (k : string) : preserves roomsInv (getUser w k).
Proof. untouched. Qed.

Lemma getChatRoom_keeps_rooms (w : World) (key : option string) :
  preserves roomsInv (getChatRoom w key).
Proof. untouched. Qed.

Lemma createMessage_keeps_rooms (w : World) (d : InsertMessage) :
  preserves roomsInv (createMessage w d).
Proof. untouched. Qed.

Lemma usersGet_keeps_rooms (key : option string) : preserves roomsInv (usersGet key).
Proof. untouched. Qed.

Lemma sendToUser_keeps_rooms (key : option string) (frame : ChatMessage) :
  preserves roomsInv (sendToUser key frame).
Proof. untouched. Qed.

Lemma sendError_keeps_rooms (s : Socket) (e : string) : preserves roomsInv (sendError s e).
Proof. untouched. Qed.

(** [findOrCreateChatRoom] when no statement is refused. *)
Lemma findOrCreateChatRoom_joins (w : World) (user : string) (st : State)
    (existing : ChatRoom) (rest : list ChatRoom) :
  dbFault w SelectChatRooms = false ->
  dbFault w UpdateChatRooms = false ->
  hasUser user (db_users st) = true ->
  keysUnique (db_chatRooms st) ->
  filter (waitingFor user) (scanRooms (db_chatRooms st)) = existing :: rest ->
  findOrCreateChatRoom w user st =
    (Ok (setUser2Id user existing),
     withChatRooms (updateWhereId (id existing) (setUser2Id user) (db_chatRooms st)) st).
Proof.
  intros Hsel Hupd Hfk Hk Hf.
  unfold findOrCreateChatRoom, bind, statement, get, modify, ret, throw.
  rewrite Hsel. simpl. rewrite Hf. simpl. rewrite Hupd. simpl. rewrite Hfk. simpl.
  destruct (waiting_row user (db_chatRooms st) existing rest Hf) as [Hin _].
  set (t' := updateWhereId (id existing) (setUser2Id user) (db_chatRooms st)).
  assert (Hk' : keysUnique t').
  { unfold keysUnique, t'. rewrite updateWhereId_keys; [exact Hk|reflexivity]. }
  assert (Hin' : In (setUser2Id user existing) t').
  { apply updateWhereId_hit; [exact Hin|reflexivity]. }
  pose proof (scan_lookup t' (setUser2Id user existing) Hk' Hin') as Hl. simpl in Hl.
  rewrite Hl. reflexivity.
Qed.

Lemma findOrCreateChatRoom_creates (w : World) (user : string) (st : State) :
  dbFault w SelectChatRooms = false ->
  dbFault w InsertChatRooms = false ->
  hasUser user (db_users st) = true ->
  hasChatRoom (uuid w) (db_chatRooms st) = false ->
  filter (waitingFor user) (scanRooms (db_chatRooms st)) = [] ->
  findOrCreateChatRoom w user st =
    (Ok (mkChatRoom (uuid w) user None true (now w) None),
     withChatRooms (db_chatRooms st ++ [mkChatRoom (uuid w) user None true (now w) None]) st).
Proof.
  intros Hsel Hins Hfk Hpk Hf.
  unfold findOrCreateChatRoom, createChatRoom, bind, statement, get, modify, ret, throw.
  rewrite Hsel. simpl. rewrite Hf. simpl. rewrite Hins. simpl. rewrite Hpk, Hfk. reflexivity.
Qed.

End Storage.

Section Handlers.
Context {db : RowOrder}.

(** Each handler is split down to the storage calls, whose lemmas are tried
    first; what remains assigns to the registry or to the wire. *)
Ltac rooms_kept :=
  repeat first
    [ apply findOrCreateChatRoom_keeps_rooms
    | apply endChatRoom_keeps_rooms
    | apply getUser_keeps_rooms
    | apply getChatRoom_keeps_rooms
    | apply createMessage_keeps_rooms
    | apply usersGet_keeps_rooms
    | apply sendToUser_keeps_rooms
    | apply sendError_keeps_rooms
    | split_step
    | apply preserves_modify; intros ? H; exact H ].

Lemma matchUsers_keeps_rooms (w : World) (key : string) :
  preserves roomsInv (matchUsers w key).
Proof. unfold matchUsers. rooms_kept. Qed.

Lemma handleUserJoin_keeps_rooms (w : World) (s : Socket) (message : ClientMessage) :
  preserves roomsInv (handleUserJoin w s message).
Proof. unfold handleUserJoin. rooms_kept. Qed.

Lemma handleSendMessage_keeps_rooms (w : World) (s : Socket) (message : ClientMessage) :
  preserves roomsInv (handleSendMessage w s message).
Proof. unfold handleSendMessage. rooms_kept. Qed.

Lemma handleTranslateMessage_keeps_rooms (w : World) (s : Socket) (message : ClientMessage) :
  preserves roomsInv (handleTranslateMessage w s message).
Proof. unfold handleTranslateMessage. rooms_kept. Qed.

Lemma handleTyping_keeps_rooms (w : World) (s : Socket) (message : ClientMessage) :
  preserves roomsInv (handleTyping w s message).
Proof. unfold handleTyping. rooms_kept. Qed.

Lemma handleLeaveChat_keeps_rooms (w : World) (s : Socket) (message : ClientMessage) :
  preserves roomsInv (handleLeaveChat w s message).
Proof. unfold handleLeaveChat. rooms_kept. Qed.

Lemma handleDisconnection_keeps_rooms (w : World) (s : Socket) :
  preserves roomsInv (handleDisconnection w s).
Proof. unfold handleDisconnection. rooms_kept. Qed.

Lemma onMessage_keeps_rooms (w : World) (s : Socket) (data : option ClientMessage) :
  preserves roomsInv (onMessage w s data).
Proof.
  unfold onMessage. apply preserves_tryCatch; [|intro; apply sendError_keeps_rooms].
  destruct data as [message|]; [|apply preserves_throw].
  unfold handleMessage.
  repeat match goal with
         | |- preserves _ (match ?x with _ => _ end) => destruct x
         | |- preserves _ (if ?x then _ else _) => destruct x
         end;
  first [ apply handleUserJoin_keeps_rooms | apply handleSendMessage_keeps_rooms
        | apply handleTranslateMessage_keeps_rooms | apply handleTyping_keeps_rooms
        | apply handleLeaveChat_keeps_rooms | apply sendError_keeps_rooms ].
Qed.

(** Establish, preserve: the invariant of the session table holds in every
    reachable state. *)
Lemma step_keeps_rooms (st : State) (ev : Event) : roomsInv st -> roomsInv (step st ev).
Proof.
  intros H. destruct ev as [s|s data w|s w]; simpl.
  - exact H.
  - apply onMessage_keeps_rooms. exact H.
  - apply handleDisconnection_keeps_rooms. exact H.
Qed.

Lemma reachable_roomsInv (st : State) : reachable st -> roomsInv st.
Proof.
  induction 1 as [directory|st ev _ IH].
  - split; [constructor|]. intros r [].
  - apply step_keeps_rooms. exact IH.
Qed.

End Handlers.

(* ================================================================== *)
(** * Properties of the specification *)

Section SelfMatch.
Context {db : RowOrder}.

Lemma reachable_run (st : State) (evs : list Event) :
  reachable st -> reachable (run st evs).
Proof.
  revert st. induction evs as [|ev evs IH]; intros st H; simpl.
  - exact H.
  - apply IH. apply reachable_step. exact H.
Qed.

Lemma outcome_of_result (w : World) (user : string) (st st' : State) (res : Result ChatRoom) :
  keysUnique (db_chatRooms st) ->
  findOrCreateChatRoom w user st = (res, st') ->
  MatchOutcome w user st res st'.
Proof.
  intros Hk E. pose proof (findOrCreateChatRoom_outcome w user st Hk) as Ho.
  rewrite E in Ho. exact Ho.
Qed.

(** C1. In every reachable state no session has its first participant as
    second participant, and [findOrCreateChatRoom], called for a user in such
    a state, returns a session that does not have that user on both sides and
    leaves a session table with the same property. *)
Theorem no_self_match (st : State) :
  reachable st ->
  (forall r, In r (db_chatRooms st) -> user2Id r <> Some (user1Id r)) /\
  (forall w user room st',
      findOrCreateChatRoom w user st = (Ok room, st') ->
      ~ (user1Id room = user /\ user2Id room = Some user) /\
      (forall r, In r (db_chatRooms st') -> user2Id r <> Some (user1Id r))).
Proof.
  intros Hreach. destruct (reachable_roomsInv st Hreach) as [Hk Hs].
  split; [exact Hs|].
  intros w user room st' E. split.
  - pose proof (outcome_of_result w user st st' (Ok room) Hk E) as Ho.
    inversion Ho as [|e rest Hf Hfk|Hf Hpk Hfk]; subst.
    + destruct (waiting_row user (db_chatRooms st) e rest Hf) as [_ [_ [_ Hne]]].
      simpl. intros [H1 _]. contradiction.
    + simpl. intros [_ H2]. discriminate.
  - pose proof (findOrCreateChatRoom_keeps_rooms w user st (conj Hk Hs)) as Hinv.
    rewrite E in Hinv. destruct Hinv as [_ Hs']. exact Hs'.
Qed.

End SelfMatch.

Lemma no_self_match_witness :
  let st := run (db := insertionOrder) (initialState directory) anaAndBen in
  (forall r, In r (db_chatRooms st) -> user2Id r <> Some (user1Id r)) /\
  (forall w user room st',
      findOrCreateChatRoom (db := insertionOrder) w user st = (Ok room, st') ->
      ~ (user1Id room = user /\ user2Id room = Some user) /\
      (forall r, In r (db_chatRooms st') -> user2Id r <> Some (user1Id r))).
Proof.
  apply (no_self_match (db := insertionOrder)).
  apply reachable_run. apply reachable_init.
Defined.

(** C2, as stated, fails when the database returns the newest rows first:
    with ana's session r0 created before ben's session r1 and both waiting
    for cleo, cleo is bound into r1; and in a reachable state where ana waits
    in r0 and in r1, ben is bound into r1. *)
Lemma newest_first_scan_binds_later_session :
  map id (filter (waitingFor "cleo") (db_chatRooms twoWaiting)) = ["r0"; "r1"] /\
  findOrCreateChatRoom (db := newestFirst) (calm 3 "r2") "cleo" twoWaiting =
    (Ok (mkChatRoom "r1" "ben" (Some "cleo") true 2 None),
     withChatRooms [roomOfAna; mkChatRoom "r1" "ben" (Some "cleo") true 2 None] twoWaiting) /\
  (let st := run (db := newestFirst) (initialState directory) anaTwice in
   map id (filter (waitingFor "ben") (db_chatRooms st)) = ["r0"; "r1"] /\
   fst (findOrCreateChatRoom (db := newestFirst) (calm 3 "r2") "ben" st) =
     Ok (mkChatRoom "r1" "ana" (Some "ben") true 2 None)).
Proof. repeat split. Qed.

Section Fifo.
Context {db : RowOrder}.

(** C2, amended. When a waiting session is eligible for the joining user and
    no statement is refused, the user is bound into the eligible session that
    the scan of the table returns first.  If the scan returns the rows in
    creation order, that session is the earliest created eligible one, and no
    session created after it is the one bound. *)
Theorem first_scanned_waiting_session_wins (w : World) (user : string) (st : State)
    (existing : ChatRoom) (rest : list ChatRoom) :
  dbFault w SelectChatRooms = false ->
  dbFault w UpdateChatRooms = false ->
  hasUser user (db_users st) = true ->
  keysUnique (db_chatRooms st) ->
  filter (waitingFor user) (scanRooms (db_chatRooms st)) = existing :: rest ->
  findOrCreateChatRoom w user st =
    (Ok (setUser2Id user existing),
     withChatRooms (updateWhereId (id existing) (setUser2Id user) (db_chatRooms st)) st) /\
  (scanRooms (db_chatRooms st) = db_chatRooms st ->
   forall before a after,
     db_chatRooms st = before ++ a :: after ->
     waitingFor user a = true ->
     (forall r, In r before -> waitingFor user r = false) ->
     existing = a /\ forall b, In b after -> id b <> id existing).
Proof.
  intros Hsel Hupd Hfk Hk Hf. split.
  - apply findOrCreateChatRoom_joins with (rest := rest); assumption.
  - intros Hscan before a after Ht Ha Hbefore.
    rewrite Hscan, Ht in Hf. rewrite filter_app in Hf. simpl in Hf.
    rewrite (filter_none _ before Hbefore), Ha in Hf. simpl in Hf.
    injection Hf as <- _. split; [reflexivity|].
    intros b Hb E. unfold keysUnique in Hk. rewrite Ht, map_app in Hk. simpl in Hk.
    apply NoDup_remove_2 in Hk. apply Hk. apply in_or_app. right.
    rewrite <- E. apply in_map. exact Hb.
Qed.

End Fifo.

Lemma first_scanned_waiting_session_wins_witness :
  findOrCreateChatRoom (db := insertionOrder) (calm 3 "r2") "cleo" twoWaiting =
    (Ok (setUser2Id "cleo" roomOfAna),
     withChatRooms (updateWhereId (id roomOfAna) (setUser2Id "cleo") (db_chatRooms twoWaiting))
                   twoWaiting) /\
  (scanRooms (RowOrder := insertionOrder) (db_chatRooms twoWaiting) = db_chatRooms twoWaiting ->
   forall before a after,
     db_chatRooms twoWaiting = before ++ a :: after ->
     waitingFor "cleo" a = true ->
     (forall r, In r before -> waitingFor "cleo" r = false) ->
     roomOfAna = a /\ forall b, In b after -> id b <> id roomOfAna).
Proof.
  apply (first_scanned_waiting_session_wins (db := insertionOrder) (calm 3 "r2") "cleo"
           twoWaiting roomOfAna [roomOfBen]).
  - reflexivity.
  - reflexivity.
  - reflexivity.
  - unfold keysUnique. simpl. repeat constructor; simpl; intuition discriminate.
  - reflexivity.
Defined.

(** C3, as stated, fails: ana and ben are paired in r0 and ana has left at
    time 5; when she leaves again at time 9, ben is notified a second time
    and the end timestamp of r0 moves from 5 to 9. *)
Lemma second_leave_notifies_and_restamps :
  let st1 := run (db := insertionOrder) (initialState directory) anaLeft in
  let st2 := step (db := insertionOrder) st1 (Incoming 1 (Some (leave "ana" "r0")) (calm 9 "r3")) in
  db_chatRooms st1 = [mkChatRoom "r0" "ana" (Some "ben") false 1 (Some 5)] /\
  db_chatRooms st2 = [mkChatRoom "r0" "ana" (Some "ben") false 1 (Some 9)] /\
  wire st1 = wire (run (db := insertionOrder) (initialState directory) anaAndBen)
             ++ [(2, UserLeftFrame "The other user has left the chat")] /\
  wire st2 = wire st1 ++ [(2, UserLeftFrame "The other user has left the chat")].
Proof. vm_compute. repeat split. Qed.

Section Leave.
Context {db : RowOrder}.

(** C3, amended. Leaving a session that is already ended raises no error and
    changes neither its participants nor its ended state, and the leaving
    user's binding stays released; but the call is not a no-op: the end
    timestamp is overwritten with the time of the call, and the other
    participant, when registered on an open socket, is sent "participant
    left" again. *)
Theorem leave_again_restamps_and_renotifies (w : World) (s : Socket) (st : State)
    (message : ClientMessage) (key : string) (room : ChatRoom) :
  m_userId message = Some key ->
  m_chatRoomId message = Some (id room) ->
  dbFault w UpdateChatRooms = false ->
  dbFault w SelectChatRooms = false ->
  keysUnique (db_chatRooms st) ->
  In room (db_chatRooms st) ->
  isActive room = false ->
  exists st',
    handleLeaveChat w s message st = (Ok tt, st') /\
    db_chatRooms st' = updateWhereId (id room) (setEnded (now w)) (db_chatRooms st) /\
    In (mkChatRoom (id room) (user1Id room) (user2Id room) false (createdAt room)
                   (Some (now w))) (db_chatRooms st') /\
    users st' = mapAssign key None (users st) /\
    wire st' = wire st ++
      match truthy (otherUserIdOf room (Some key)) with
      | Some other =>
          match mapGet other (users st) with
          | Some u =>
              if isOpen (socket u) st
              then [(socket u, UserLeftFrame "The other user has left the chat")]
              else []
          | None => []
          end
      | None => []
      end /\
    db_messages st' = db_messages st /\
    db_users st' = db_users st /\
    openSockets st' = openSockets st.
Proof.
  intros Hkey Hroom Hupd Hsel Hk Hin Hended.
  set (t' := updateWhereId (id room) (setEnded (now w)) (db_chatRooms st)).
  assert (Hk' : keysUnique t').
  { unfold keysUnique, t'. rewrite updateWhereId_keys; [exact Hk|reflexivity]. }
  assert (Hin' : In (setEnded (now w) room) t').
  { apply updateWhereId_hit; [exact Hin|reflexivity]. }
  pose proof (scan_lookup t' (setEnded (now w) room) Hk' Hin') as Hl. simpl in Hl.
  unfold handleLeaveChat, endChatRoom, getChatRoom, sendToUser, usersGet, send.
  rewrite Hkey, Hroom. run_monad. rewrite Hupd, Hsel. simpl.
  fold t'. rewrite Hl. simpl.
  replace (otherUserIdOf (setEnded (now w) room) (Some key))
    with (otherUserIdOf room (Some key)) by reflexivity.
  destruct (truthy (otherUserIdOf room (Some key))) as [other|]; simpl.
  - destruct (mapGet other (users st)) as [u|] eqn:Hother; simpl.
    + unfold isOpen at 1. simpl. fold (isOpen (socket u) st).
      destruct (isOpen (socket u) st); simpl;
        (destruct (mapGet key (users st)) as [me|] eqn:Hme; simpl;
         eexists; repeat split; try exact Hin';
         rewrite ?app_nil_r; try reflexivity;
         symmetry; apply mapAssign_absent; exact Hme).
    + destruct (mapGet key (users st)) as [me|] eqn:Hme; simpl;
        eexists; repeat split; try exact Hin';
        rewrite ?app_nil_r; try reflexivity;
        symmetry; apply mapAssign_absent; exact Hme.
  - destruct (mapGet key (users st)) as [me|] eqn:Hme; simpl;
      eexists; repeat split; try exact Hin';
      rewrite ?app_nil_r; try reflexivity;
      symmetry; apply mapAssign_absent; exact Hme.
Qed.

End Leave.

Section Relay.
Context {db : RowOrder}.

Lemma strictEq_refl (a : option string) : strictEq a a = true.
Proof. destruct a; simpl; [apply String.eqb_refl|reflexivity]. Qed.

Lemma truthy_nonempty (r : string) : r <> "" -> truthy (Some r) = Some r.
Proof.
  intros H. simpl. apply String.eqb_neq in H. rewrite H. reflexivity.
Qed.

Lemma hasChatRoom_In (room : ChatRoom) (t : list ChatRoom) :
  In room t -> hasChatRoom (id room) t = true.
Proof.
  intros Hin. unfold hasChatRoom. apply existsb_exists.
  exists room. split; [exact Hin|apply String.eqb_refl].
Qed.

(** The code's choice of the addressee, for a member of the session: the
    second participant when the first asks, the first when the second
    does. *)
Lemma otherUserIdOf_member (room : ChatRoom) (key peerId : string) :
  (user1Id room = key /\ user2Id room = Some peerId) \/
  (user1Id room = peerId /\ user2Id room = Some key) ->
  peerId <> "" ->
  truthy (otherUserIdOf room (Some key)) = Some peerId.
Proof.
  intros Hmember Hne. unfold otherUserIdOf, strictEq.
  destruct Hmember as [[H1 H2]|[H1 H2]].
  - rewrite H1, String.eqb_refl, H2. apply truthy_nonempty. exact Hne.
  - destruct (String.eqb (user1Id room) key) eqn:E.
    + apply String.eqb_eq in E. rewrite H2.
      replace key with peerId by congruence. apply truthy_nonempty. exact Hne.
    + rewrite H1. apply truthy_nonempty. exact Hne.
Qed.

(** C4. A message from a member of the session, whose registry entry is
    bound to it, is first stored: [createMessage] returns a record with the
    session, the sender, the content and the sender's language as the driver
    writes them, created at the time of the insertion, and leaves it at the
    end of the log with nothing sent yet.  Then one and the same frame, with
    the session, the sender, the content and the language of the sender and,
    as its timestamp, the creation time of the stored record -- the handler
    reads no clock of its own -- is sent to the sender and to the other
    member of the session: to the second participant when the first is the
    sender, to the first when the second is.  With both registered on open
    sockets these are the two frames sent, in this order. *)
Theorem sent_message_is_stored_then_sent_to_both (w : World) (s : Socket) (st : State)
    (message : ClientMessage) (key text : string) (user : ChatUser) (room : ChatRoom)
    (peerId : string) :
  m_userId message = Some key ->
  m_chatRoomId message = Some (id room) ->
  m_content message = Some text ->
  mapGet key (users st) = Some user ->
  chatRoomId user = Some (id room) ->
  keysUnique (db_chatRooms st) ->
  In room (db_chatRooms st) ->
  (user1Id room = key /\ user2Id room = Some peerId) \/
  (user1Id room = peerId /\ user2Id room = Some key) ->
  peerId <> "" ->
  dbFault w InsertMessages = false ->
  dbFault w SelectChatRooms = false ->
  hasMessage (uuid w) (db_messages st) = false ->
  hasUser key (db_users st) = true ->
  hasNul text = false ->
  hasNul (preferredLanguage user) = false ->
  let saved := mkMessage (uuid w) (id room) key (toWellFormed text)
                         (toWellFormed (preferredLanguage user)) (now w) in
  let frame := MessageFrame (Some (id room)) (Some key) (Some text)
                            (preferredLanguage user) (msg_createdAt saved) in
  let stored := withMessages (db_messages st ++ [saved]) st in
  createMessage w (mkInsertMessage (m_chatRoomId message) (m_userId message)
                                   (m_content message) (preferredLanguage user)) st
    = (Ok saved, stored) /\
  wire stored = wire st /\
  handleSendMessage w s message st =
    (Ok tt,
     withWire (wire stored ++ delivered st (Some key) frame
                           ++ delivered st (Some peerId) frame) stored) /\
  (hasLoneSurrogate text = false -> msg_content saved = text) /\
  (hasLoneSurrogate (preferredLanguage user) = false ->
     msg_originalLanguage saved = preferredLanguage user) /\
  (forall peer,
      mapGet peerId (users st) = Some peer ->
      isOpen (socket user) st = true ->
      isOpen (socket peer) st = true ->
      delivered st (Some key) frame ++ delivered st (Some peerId) frame =
        [(socket user, frame); (socket peer, frame)]).
Proof.
  intros Hkey Hroom Hcontent Huser Hbound Hk Hin Hmember Hne Hins Hsel Hfresh Hsender
         Htext Hlang saved frame.
  pose proof (createMessage_runs w (id room) key text (preferredLanguage user) st
                Hins Htext Hlang Hfresh (hasChatRoom_In room _ Hin) Hsender) as Hsave.
  cbv zeta in Hsave. fold saved in Hsave.
  pose proof (otherUserIdOf_member room key peerId Hmember Hne) as Hother.
  intros stored. subst stored.
  split; [rewrite Hkey, Hroom, Hcontent; exact Hsave|].
  split; [reflexivity|].
  split; [|split; [|split]].
  - unfold handleSendMessage. rewrite Hkey, Hroom, Hcontent.
    rewrite (bind_ok _ _ st st (Some user))
      by (unfold usersGet; run_monad; rewrite Huser; reflexivity).
    rewrite Hbound, strictEq_refl. simpl.
    unfold tryCatch. rewrite (bind_ok _ _ _ _ _ Hsave).
    rewrite (bind_ok _ _ _ (withMessages (db_messages st ++ [saved]) st) (Some room)).
    2:{ unfold getChatRoom. run_monad. rewrite Hsel. simpl.
        rewrite (scan_lookup _ room Hk Hin). reflexivity. }
    rewrite (bind_ok _ _ _ _ _ (sendToUser_wire _ _ _)).
    fold frame. rewrite Hother.
    rewrite sendToUser_wire. simpl wire.
    rewrite delivered_withWire, !delivered_withMessages, app_assoc. reflexivity.
  - intros Hwf. apply toWellFormed_same. exact Hwf.
  - intros Hwf. apply toWellFormed_same. exact Hwf.
  - intros peer Hpeer Ho1 Ho2. unfold delivered.
    rewrite Huser, Hpeer, Ho1, Ho2. reflexivity.
Qed.

(** C7. If the insertion into the message log fails, the sender's socket is
    sent the error "Failed to send message" and nothing else happens: no
    message frame is sent to either participant, and the registry, the
    session table and the log are as before. *)
Theorem refused_message_is_reported_not_delivered (w : World) (s : Socket) (st st1 : State)
    (message : ClientMessage) (key : string) (user : ChatUser) (e : string) :
  m_userId message = Some key ->
  mapGet key (users st) = Some user ->
  strictEq (chatRoomId user) (m_chatRoomId message) = true ->
  createMessage w (mkInsertMessage (m_chatRoomId message) (Some key)
                                   (m_content message) (preferredLanguage user)) st
    = (Throw e, st1) ->
  handleSendMessage w s message st =
    (Ok tt, withWire (wire st ++ reported st s "Failed to send message") st).
Proof.
  intros Hkey Huser Hbound Hsave.
  pose proof (createMessage_refused _ _ _ _ _ Hsave) as ->.
  unfold handleSendMessage. rewrite Hkey.
  rewrite (bind_ok _ _ st st (Some user))
    by (unfold usersGet; run_monad; rewrite Huser; reflexivity).
  rewrite Hbound. simpl. unfold tryCatch. rewrite (bind_throw _ _ _ _ _ Hsave).
  apply sendError_wire.
Qed.

End Relay.

(** C6, as stated, fails for the typing signal: cleo, who has no registry
    entry, signals typing in ana and ben's session r0 on the open socket 3,
    and the server answers nothing and changes nothing. *)
Lemma foreign_typing_gets_no_answer :
  let st := run (db := insertionOrder) (initialState directory) anaBenAndVisitor in
  belongsTo st (Some "cleo") (Some "r0") = false /\
  isOpen 3 st = true /\
  step (db := insertionOrder) st (Incoming 3 (Some (typing "cleo" "r0")) (calm 4 "r2")) = st.
Proof. vm_compute. repeat split. Qed.

Section Rejection.
Context {db : RowOrder}.

Lemma getUser_state (w : World) (k : string) (st : State) :
  getUser w k st = (fst (getUser w k st), st).
Proof.
  unfold getUser. run_monad. destruct (dbFault w SelectUsers); reflexivity.
Qed.

(** C6, amended. When the sender has no registry entry bound to the session
    named in the envelope, a message is answered with the error "Invalid
    chat room" on the socket it came from and changes nothing else, and a
    typing signal is dropped: no frame is sent, not even an error, and the
    state is unchanged. *)
Theorem foreign_session_send_is_refused_typing_is_dropped (w : World) (s : Socket)
    (st : State) (message : ClientMessage) :
  belongsTo st (m_userId message) (m_chatRoomId message) = false ->
  handleSendMessage w s message st =
    (Ok tt, withWire (wire st ++ reported st s "Invalid chat room") st) /\
  handleTyping w s message st = (Ok tt, st).
Proof.
  intros Hb. unfold belongsTo in Hb.
  unfold handleSendMessage, handleTyping, usersGet. run_monad.
  destruct (m_userId message) as [k|]; simpl.
  - destruct (mapGet k (users st)) as [u|]; simpl.
    + rewrite Hb. simpl. split; [apply sendError_wire|reflexivity].
    + split; [apply sendError_wire|reflexivity].
  - split; [apply sendError_wire|reflexivity].
Qed.

(** C10. A join without a user id, or with a user id that [getUser] does not
    find, is answered with an error on the joining socket and changes
    nothing else: the registry and the session table are as before. *)
Theorem join_of_unknown_user_is_rejected (w : World) (s : Socket) (st : State)
    (message : ClientMessage) :
  (truthy (m_userId message) = None \/
   exists key, truthy (m_userId message) = Some key /\ fst (getUser w key st) = Ok None) ->
  handleUserJoin w s message st =
    (Ok tt,
     withWire (wire st ++ reported st s
                 (match truthy (m_userId message) with
                  | None => "User ID is required"
                  | Some _ => "User not found"
                  end)) st).
Proof.
  intros [Hnone|[key [Hkey Hget]]]; unfold handleUserJoin.
  - rewrite Hnone. apply sendError_wire.
  - rewrite Hkey. rewrite (bind_ok _ _ st st None).
    + apply sendError_wire.
    + rewrite (getUser_state w key st), Hget. reflexivity.
Qed.

End Rejection.


Section Translation.



End Translation.

Section Registration.
Context {db : RowOrder}.

(** Storage calls and sends do not assign to the registry. *)
Ltac registry_untouched :=
  unfold findOrCreateChatRoom, createChatRoom, getUser, getChatRoom, createMessage,
         sendToUser, sendError, send, usersGet;
  repeat first [ split_step | apply preserves_modify; intros ? H; exact H ].

Lemma findOrCreateChatRoom_keeps_registry (w : World) (user : string)
    (us : list (string * ChatUser)) :
  preserves (fun st => users st = us) (findOrCreateChatRoom w user).
Proof. registry_untouched. Qed.

Lemma getUser_keeps_registry (w : World) (k : string) (us : list (string * ChatUser)) :
  preserves (fun st => users st = us) (getUser w k).
Proof. registry_untouched. Qed.

Lemma sendToUser_keeps_registry (key : option string) (frame : ChatMessage)
    (us : list (string * ChatUser)) :
  preserves (fun st => users st = us) (sendToUser key frame).
Proof. registry_untouched. Qed.

Lemma sendError_keeps_registry (s : Socket) (e : string) (us : list (string * ChatUser)) :
  preserves (fun st => users st = us) (sendError s e).
Proof. registry_untouched. Qed.

Lemma usersGet_keeps_registry (key : option string) (us : list (string * ChatUser)) :
  preserves (fun st => users st = us) (usersGet key).
Proof. registry_untouched. Qed.

(** A property of the registry alone is kept by what leaves the registry
    alone. *)
Lemma registry_property (A : Type) (Q : list (string * ChatUser) -> Prop) (m : M A) :
  (forall us, preserves (fun st => users st = us) m) ->
  preserves (fun st => Q (users st)) m.
Proof.
  intros H st HQ. rewrite (H (users st) st eq_refl). exact HQ.
Qed.

Ltac registry_kept :=
  first
    [ apply registry_property; intro; apply findOrCreateChatRoom_keeps_registry
    | apply registry_property; intro; apply getUser_keeps_registry
    | apply registry_property; intro; apply sendToUser_keeps_registry
    | apply registry_property; intro; apply sendError_keeps_registry
    | apply registry_property; intro; apply usersGet_keeps_registry ].

Lemma registeredOn_assign (key : string) (s : Socket) (language : string)
    (k : string) (v : option string) (st : State) :
  registeredOn key s language st ->
  registeredOn key s language (withUsers (mapAssign k v (users st)) st).
Proof.
  intros [entry [Hget [Hid [Hs Hl]]]]. unfold registeredOn. simpl.
  destruct (string_dec k key) as [->|Hne].
  - exists (setChatRoomId v entry). rewrite mapGet_mapAssign_same, Hget. simpl. auto.
  - exists entry. rewrite mapGet_mapAssign_other by exact Hne. auto.
Qed.

Lemma matchUsers_keeps_handle (w : World) (k key : string) (s : Socket) (language : string) :
  preserves (registeredOn key s language) (matchUsers w k).
Proof.
  unfold matchUsers.
  repeat first
    [ change (registeredOn key s language)
        with (fun st => (fun us => exists entry,
                mapGet key us = Some entry /\
                userId entry = key /\ socket entry = s /\ preferredLanguage entry = language)
              (users st));
      registry_kept
    | split_step
    | apply preserves_modify; intros ? H; apply registeredOn_assign; exact H ].
Qed.

(** C9. A join of a user of the directory leaves that user registered on the
    joining socket, whether or not an entry on another connection existed
    before: a lookup of the user then returns the new entry, with the
    language of the join (or, failing that, of the directory). *)
Theorem join_registers_the_new_connection (w : World) (s : Socket) (st : State)
    (message : ClientMessage) (key : string) (record : User) :
  truthy (m_userId message) = Some key ->
  fst (getUser w key st) = Ok (Some record) ->
  registeredOn key s
    (orElse (m_preferredLanguage message) (user_preferredLanguage record))
    (snd (handleUserJoin w s message st)).
Proof.
  intros Hkey Hget. unfold handleUserJoin. rewrite Hkey.
  rewrite (bind_ok _ _ st st (Some record))
    by (rewrite (getUser_state w key st), Hget; reflexivity).
  unfold bind at 1. unfold modify at 1.
  apply matchUsers_keeps_handle.
  eexists. simpl. rewrite mapGet_mapSet_same. repeat split.
Qed.

End Registration.

(** C5, as stated, fails. ana, bound to the active session r0 with ben,
    joins again while cleo waits in r1: she is paired into r1, and r0 stays
    active with her as first participant.  When nobody waits, her second join
    creates a second session r1 in which she waits. *)
Lemma bound_user_is_matched_again :
  let st := run (db := insertionOrder) (initialState directory) cleoWaits in
  let st' := step (db := insertionOrder) st (Incoming 1 (Some (join "ana")) (calm 4 "r2")) in
  let st0 := run (db := insertionOrder) (initialState directory) anaAndBen in
  let st0' := step (db := insertionOrder) st0 (Incoming 1 (Some (join "ana")) (calm 3 "r1")) in
  (mapGet "ana" (users st) = Some (mkChatUser "ana" 1 (Some "r0") "en-GB") /\
   db_chatRooms st = [ mkChatRoom "r0" "ana" (Some "ben") true 1 None;
                       mkChatRoom "r1" "cleo" None true 3 None ] /\
   mapGet "ana" (users st') = Some (mkChatUser "ana" 1 (Some "r1") "en-GB") /\
   db_chatRooms st' = [ mkChatRoom "r0" "ana" (Some "ben") true 1 None;
                        mkChatRoom "r1" "cleo" (Some "ana") true 3 None ]) /\
  (mapGet "ana" (users st0) = Some (mkChatUser "ana" 1 (Some "r0") "en-GB") /\
   db_chatRooms st0 = [ mkChatRoom "r0" "ana" (Some "ben") true 1 None ] /\
   mapGet "ana" (users st0') = Some (mkChatUser "ana" 1 (Some "r1") "en-GB") /\
   db_chatRooms st0' = [ mkChatRoom "r0" "ana" (Some "ben") true 1 None;
                         mkChatRoom "r1" "ana" None true 3 None ]).
Proof. repeat split. Qed.

Section Rejoin.
Context {db : RowOrder}.

Lemma bind_modify (B : Type) (f : State -> State) (k : unit -> M B) (st : State) :
  bind (modify f) k st = k tt (f st).
Proof. reflexivity. Qed.

Lemma getUser_found (w : World) (key : string) (st : State) (record : User) :
  fst (getUser w key st) = Ok (Some record) -> hasUser key (db_users st) = true.
Proof.
  unfold getUser. run_monad. destruct (dbFault w SelectUsers); simpl; [discriminate|].
  intros E. inversion E as [Hhd].
  destruct (filter (fun u => String.eqb (user_id u) key) (scanUsers (db_users st)))
    as [|u rest] eqn:Hf; [discriminate|].
  assert (Hin : In u (filter (fun u => String.eqb (user_id u) key) (scanUsers (db_users st))))
    by (rewrite Hf; left; reflexivity).
  apply filter_In in Hin. destruct Hin as [Hin Hu].
  apply (Permutation_in _ (scanUsers_perm (db_users st))) in Hin.
  unfold hasUser. apply existsb_exists. exists u. auto.
Qed.

(** Reads and sends leave the registry and the session table alone. *)
Ltac state_untouched :=
  unfold getUser, sendToUser, sendError, send, usersGet;
  repeat first [ split_step | apply preserves_modify; intros ? H; exact H ].

Lemma getUser_keeps_state (w : World) (k : string) (us : list (string * ChatUser))
    (t : list ChatRoom) :
  preserves (fun st => users st = us /\ db_chatRooms st = t) (getUser w k).
Proof. state_untouched. Qed.

Lemma sendToUser_keeps_state (key : option string) (frame : ChatMessage)
    (us : list (string * ChatUser)) (t : list ChatRoom) :
  preserves (fun st => users st = us /\ db_chatRooms st = t) (sendToUser key frame).
Proof. state_untouched. Qed.

Lemma sendError_keeps_state (s : Socket) (e : string) (us : list (string * ChatUser))
    (t : list ChatRoom) :
  preserves (fun st => users st = us /\ db_chatRooms st = t) (sendError s e).
Proof. state_untouched. Qed.

Lemma usersGet_keeps_state (key : option string) (us : list (string * ChatUser))
    (t : list ChatRoom) :
  preserves (fun st => users st = us /\ db_chatRooms st = t) (usersGet key).
Proof. state_untouched. Qed.

Lemma binding_kept (A : Type) (key room : string) (t0 : list ChatRoom) (m : M A) :
  (forall us t, preserves (fun st => users st = us /\ db_chatRooms st = t) m) ->
  preserves (fun st => db_chatRooms st = t0 /\ boundTo key room st) m.
Proof.
  intros H st [Ht Hb].
  destruct (H (users st) (db_chatRooms st) st (conj eq_refl eq_refl)) as [Hu Hr].
  unfold boundTo. rewrite Hu, Hr. split; assumption.
Qed.

Lemma boundTo_assign (key room k : string) (st : State) :
  boundTo key room st ->
  boundTo key room (withUsers (mapAssign k (Some room) (users st)) st).
Proof.
  intros [entry [Hget Hb]]. unfold boundTo. simpl.
  destruct (string_dec k key) as [->|Hne].
  - exists (setChatRoomId (Some room) entry). rewrite mapGet_mapAssign_same, Hget. auto.
  - exists entry. rewrite mapGet_mapAssign_other by exact Hne. auto.
Qed.

(** Once [findOrCreateChatRoom] has returned a session, [matchUsers] binds
    the user to it and leaves the session table as the call left it. *)
Lemma matchUsers_binds (w : World) (key : string) (st st3 : State) (user : ChatUser)
    (room : ChatRoom) :
  mapGet key (users st) = Some user ->
  findOrCreateChatRoom w key st = (Ok room, st3) ->
  users st3 = users st ->
  db_chatRooms (snd (matchUsers w key st)) = db_chatRooms st3 /\
  boundTo key (id room) (snd (matchUsers w key st)).
Proof.
  intros Huser Efind Hus.
  unfold matchUsers.
  rewrite (bind_ok _ _ st st (Some user))
    by (unfold usersGet; run_monad; rewrite Huser; reflexivity).
  unfold tryCatch. rewrite (bind_ok _ _ _ _ _ Efind). rewrite bind_modify.
  set (st4 := withUsers (mapAssign key (Some (id room)) (users st3)) st3).
  match goal with |- context [let (r, st') := ?m st4 in _] => set (rest := m) end.
  set (T := fun st => db_chatRooms st = db_chatRooms st3 /\ boundTo key (id room) st).
  assert (Hrest : preserves T rest).
  { subst rest T.
    repeat first
      [ apply binding_kept; intros;
        first [ apply getUser_keeps_state | apply sendToUser_keeps_state
              | apply sendError_keeps_state | apply usersGet_keeps_state ]
      | split_step
      | apply preserves_modify; intros ? [Ht Hb];
        split; [exact Ht | apply boundTo_assign; exact Hb] ]. }
  assert (Hinit : T st4).
  { split; [reflexivity|]. unfold boundTo, st4. simpl.
    rewrite mapGet_mapAssign_same, Hus, Huser. eexists. split; reflexivity. }
  specialize (Hrest st4 Hinit).
  destruct (rest st4) as [[a|e] stx]; simpl in Hrest |- *.
  - exact Hrest.
  - apply (binding_kept unit key (id room) (db_chatRooms st3)
             (sendError (socket user) "Failed to join chat")); [|exact Hrest].
    intros. apply sendError_keeps_state.
Qed.

(** C5, amended. A join does not consult the binding of the joining user.
    When the user's registry entry is bound to an active session they take
    part in and no statement is refused, the join leaves that session as it
    is and binds the user to another one: the first waiting session of
    another user in the order of the scan, which gets the user as second
    participant, or, when there is none, a new session in which the user
    waits. *)
Theorem join_while_bound_is_matched_like_any_join (w : World) (s : Socket) (st : State)
    (message : ClientMessage) (key : string) (record : User) (entry : ChatUser)
    (held : ChatRoom) :
  truthy (m_userId message) = Some key ->
  fst (getUser w key st) = Ok (Some record) ->
  dbFault w SelectChatRooms = false ->
  dbFault w UpdateChatRooms = false ->
  dbFault w InsertChatRooms = false ->
  hasChatRoom (uuid w) (db_chatRooms st) = false ->
  keysUnique (db_chatRooms st) ->
  mapGet key (users st) = Some entry ->
  chatRoomId entry = Some (id held) ->
  In held (db_chatRooms st) ->
  isActive held = true ->
  (user1Id held = key \/ user2Id held = Some key) ->
  let st' := snd (handleUserJoin w s message st) in
  In held (db_chatRooms st') /\
  exists room,
    In room (db_chatRooms st') /\
    id room <> id held /\
    boundTo key (id room) st' /\
    match filter (waitingFor key) (scanRooms (db_chatRooms st)) with
    | existing :: _ =>
        room = setUser2Id key existing /\
        db_chatRooms st' = updateWhereId (id existing) (setUser2Id key) (db_chatRooms st)
    | [] =>
        room = mkChatRoom (uuid w) key None true (now w) None /\
        db_chatRooms st' = db_chatRooms st ++ [room]
    end.
Proof.
  intros Hkey Hget Hsel Hupd Hins Hfresh Hk Hentry Hbound Hheld Hactive Hpart st'.
  pose proof (getUser_found w key st record Hget) as Hfk.
  subst st'. unfold handleUserJoin. rewrite Hkey.
  rewrite (bind_ok _ _ st st (Some record))
    by (rewrite (getUser_state w key st), Hget; reflexivity).
  rewrite bind_modify.
  set (chatUser := mkChatUser key s None
         (orElse (m_preferredLanguage message) (user_preferredLanguage record))).
  set (st2 := withUsers (mapSet key chatUser (users st)) st).
  assert (Hme : mapGet key (users st2) = Some chatUser)
    by (unfold st2; simpl; apply mapGet_mapSet_same).
  destruct (filter (waitingFor key) (scanRooms (db_chatRooms st))) as [|existing rest] eqn:Hf.
  - pose proof (findOrCreateChatRoom_creates w key st2 Hsel Hins Hfk Hfresh Hf) as Efind.
    destruct (matchUsers_binds w key st2 _ chatUser _ Hme Efind eq_refl) as [Hrooms Hb].
    rewrite Hrooms. simpl. split; [apply in_or_app; left; exact Hheld|].
    eexists. split; [apply in_or_app; right; left; reflexivity|].
    split; [|split; [exact Hb|split; reflexivity]].
    simpl. intros E. apply (hasChatRoom_false _ _ Hfresh). rewrite E.
    apply in_map. exact Hheld.
  - pose proof (findOrCreateChatRoom_joins w key st2 existing rest Hsel Hupd Hfk Hk Hf)
      as Efind.
    destruct (matchUsers_binds w key st2 _ chatUser _ Hme Efind eq_refl) as [Hrooms Hb].
    rewrite Hrooms. simpl.
    destruct (waiting_row key (db_chatRooms st) existing rest Hf)
      as [Hin [Hnull [_ Hne]]].
    assert (Hother : id held <> id existing).
    { intros E.
      assert (held = existing) by (eapply same_key_same_row; eassumption). subst held.
      destruct Hpart as [H1|H2]; [contradiction|congruence]. }
    split; [apply updateWhereId_miss; assumption|].
    exists (setUser2Id key existing).
    split; [apply updateWhereId_hit; [exact Hin|reflexivity]|].
    split; [simpl; congruence|].
    split; [exact Hb|split; reflexivity].
Qed.

End Rejoin.

(* ================================================================== *)
(** * The theorems at work on the scenarios *)

Ltac keys_distinct :=
  unfold keysUnique; simpl;
  repeat (constructor; [simpl; intuition discriminate|]); constructor.

Lemma leave_again_restamps_and_renotifies_witness :
  let st := run (db := insertionOrder) (initialState directory) anaLeft in
  exists st',
    handleLeaveChat (db := insertionOrder) (calm 9 "r3") 1 (leave "ana" "r0") st = (Ok tt, st') /\
    db_chatRooms st' = [mkChatRoom "r0" "ana" (Some "ben") false 1 (Some 9)] /\
    In (mkChatRoom "r0" "ana" (Some "ben") false 1 (Some 9)) (db_chatRooms st') /\
    users st' = mapAssign "ana" None (users st) /\
    wire st' = wire st ++ [(2, UserLeftFrame "The other user has left the chat")] /\
    db_messages st' = db_messages st /\
    db_users st' = db_users st /\
    openSockets st' = openSockets st.
Proof.
  apply (leave_again_restamps_and_renotifies (db := insertionOrder) (calm 9 "r3") 1
           (run (db := insertionOrder) (initialState directory) anaLeft)
           (leave "ana" "r0") "ana"
           (mkChatRoom "r0" "ana" (Some "ben") false 1 (Some 5))).
  - reflexivity.
  - reflexivity.
  - reflexivity.
  - reflexivity.
  - keys_distinct.
  - left. reflexivity.
  - reflexivity.
Defined.

Lemma sent_message_is_stored_then_sent_to_both_witness :
  let st := run (db := insertionOrder) (initialState directory) anaAndBen in
  let saved := mkMessage "m0" "r0" "ben" "salut" "fr-FR" 3 in
  let frame := MessageFrame (Some "r0") (Some "ben") (Some "salut") "fr-FR" 3 in
  handleSendMessage (db := insertionOrder) (calm 3 "m0") 2 (say "ben" "r0" "salut") st =
    (Ok tt, withWire (wire st ++ [(2, frame); (1, frame)]) (withMessages [saved] st)).
Proof.
  exact (proj1 (proj2 (proj2 (sent_message_is_stored_then_sent_to_both (db := insertionOrder)
           (calm 3 "m0") 2
           (run (db := insertionOrder) (initialState directory) anaAndBen)
           (say "ben" "r0" "salut") "ben" "salut" (mkChatUser "ben" 2 (Some "r0") "fr-FR")
           (mkChatRoom "r0" "ana" (Some "ben") true 1 None) "ana"
           eq_refl eq_refl eq_refl eq_refl eq_refl
           ltac:(keys_distinct) (or_introl eq_refl) (or_intror (conj eq_refl eq_refl))
           ltac:(discriminate) eq_refl eq_refl eq_refl eq_refl eq_refl eq_refl)))).
Defined.

Lemma join_while_bound_is_matched_like_any_join_witness :
  let st := run (db := insertionOrder) (initialState directory) cleoWaits in
  let st' := snd (handleUserJoin (db := insertionOrder) (calm 4 "r2") 1 (join "ana") st) in
  let held := mkChatRoom "r0" "ana" (Some "ben") true 1 None in
  In held (db_chatRooms st') /\
  exists room,
    In room (db_chatRooms st') /\
    id room <> id held /\
    boundTo "ana" (id room) st' /\
    room = mkChatRoom "r1" "cleo" (Some "ana") true 3 None /\
    db_chatRooms st' = [held; mkChatRoom "r1" "cleo" (Some "ana") true 3 None].
Proof.
  exact (join_while_bound_is_matched_like_any_join (db := insertionOrder)
           (calm 4 "r2") 1
           (run (db := insertionOrder) (initialState directory) cleoWaits)
           (join "ana") "ana" (mkUser "ana" (Some "Ana") (Some "Silva") "en-GB")
           (mkChatUser "ana" 1 (Some "r0") "en-GB")
           (mkChatRoom "r0" "ana" (Some "ben") true 1 None)
           eq_refl eq_refl eq_refl eq_refl eq_refl eq_refl
           ltac:(keys_distinct) eq_refl eq_refl (or_introl eq_refl) eq_refl
           (or_introl eq_refl)).
Defined.

Lemma foreign_session_send_is_refused_typing_is_dropped_witness :
  let st := run (db := insertionOrder) (initialState directory) anaBenAndVisitor in
  handleSendMessage (db := insertionOrder) (calm 4 "m0") 3 (say "cleo" "r0" "hi") st =
    (Ok tt, withWire (wire st ++ [(3, ErrorFrame "Invalid chat room")]) st) /\
  handleTyping (db := insertionOrder) (calm 4 "m0") 3 (say "cleo" "r0" "hi") st = (Ok tt, st).
Proof.
  exact (foreign_session_send_is_refused_typing_is_dropped (db := insertionOrder)
           (calm 4 "m0") 3
           (run (db := insertionOrder) (initialState directory) anaBenAndVisitor)
           (say "cleo" "r0" "hi") eq_refl).
Defined.


Lemma refused_message_is_reported_not_delivered_witness :
  let st := run (db := insertionOrder) (initialState directory) anaAndBen in
  handleSendMessage (db := insertionOrder) (logDown 3 "m0") 1 (say "ana" "r0" "hello") st =
    (Ok tt, withWire (wire st ++ [(1, ErrorFrame "Failed to send message")]) st).
Proof.
  exact (refused_message_is_reported_not_delivered (db := insertionOrder)
           (logDown 3 "m0") 1
           (run (db := insertionOrder) (initialState directory) anaAndBen)
           (run (db := insertionOrder) (initialState directory) anaAndBen)
           (say "ana" "r0" "hello") "ana" (mkChatUser "ana" 1 (Some "r0") "en-GB")
           "database error" eq_refl eq_refl eq_refl eq_refl).
Defined.

Lemma join_registers_the_new_connection_witness :
  let st := run (db := insertionOrder) (initialState directory) anaBenAndNewSocket in
  mapGet "ana" (users st) = Some (mkChatUser "ana" 1 (Some "r0") "en-GB") /\
  registeredOn "ana" 7 "en-GB"
    (snd (handleUserJoin (db := insertionOrder) (calm 3 "r1") 7 (join "ana") st)).
Proof.
  split; [reflexivity|].
  exact (join_registers_the_new_connection (db := insertionOrder) (calm 3 "r1") 7
           (run (db := insertionOrder) (initialState directory) anaBenAndNewSocket)
           (join "ana") "ana" (mkUser "ana" (Some "Ana") (Some "Silva") "en-GB")
           eq_refl eq_refl).
Defined.

Lemma join_of_unknown_user_is_rejected_witness :
  let st := run (db := insertionOrder) (initialState directory) anaAndBen in
  handleUserJoin (db := insertionOrder) (calm 3 "r1") 1 (join "zed") st =
    (Ok tt, withWire (wire st ++ [(1, ErrorFrame "User not found")]) st).
Proof.
  apply (join_of_unknown_user_is_rejected (db := insertionOrder) (calm 3 "r1") 1
           (run (db := insertionOrder) (initialState directory) anaAndBen) (join "zed")).
  right. exists "zed". split; reflexivity.
Defined.

(* ================================================================== *)
(** * Further properties of the server *)

Section Advance.

Lemma succeeds_refl (r : ChatRoom) : succeeds r r.
Proof. unfold succeeds. auto. Qed.

Lemma succeeds_trans (a b c : ChatRoom) : succeeds a b -> succeeds b c -> succeeds a c.
Proof.
  unfold succeeds. intros [H1 [H2 [H3 [H4 H5]]]] [K1 [K2 [K3 [K4 K5]]]].
  repeat split; try congruence; auto.
Qed.

Lemma succeeds_participant (k : string) (a b : ChatRoom) :
  succeeds a b -> participant k a -> participant k b.
Proof.
  unfold succeeds, participant. intros [_ [H2 [_ [H4 _]]]] [H|H].
  - left. congruence.
  - right. auto.
Qed.

Lemma roomsAdvance_refl (t : list ChatRoom) : roomsAdvance t t.
Proof. intros r Hr. exists r. split; [exact Hr|apply succeeds_refl]. Qed.

Lemma roomsAdvance_trans (t1 t2 t3 : list ChatRoom) :
  roomsAdvance t1 t2 -> roomsAdvance t2 t3 -> roomsAdvance t1 t3.
Proof.
  intros H12 H23 a Ha. destruct (H12 a Ha) as [b [Hb Hab]].
  destruct (H23 b Hb) as [c [Hc Hbc]]. exists c. split; [exact Hc|].
  eapply succeeds_trans; eassumption.
Qed.

Lemma roomsAdvance_insert (t l : list ChatRoom) : roomsAdvance t (t ++ l).
Proof.
  intros r Hr. exists r. split; [apply in_or_app; left; exact Hr|apply succeeds_refl].
Qed.

Lemma roomsAdvance_end (k : string) (n : Time) (t : list ChatRoom) :
  roomsAdvance t (updateWhereId k (setEnded n) t).
Proof.
  intros r Hr. destruct (string_dec (id r) k) as [E|E].
  - exists (setEnded n r). split; [apply updateWhereId_hit; assumption|].
    unfold succeeds. simpl. auto.
  - exists r. split; [apply updateWhereId_miss; assumption|apply succeeds_refl].
Qed.

Lemma roomsAdvance_pair (u : string) (e : ChatRoom) (t : list ChatRoom) :
  keysUnique t -> In e t -> user2Id e = None ->
  roomsAdvance t (updateWhereId (id e) (setUser2Id u) t).
Proof.
  intros Hk He Hnull r Hr. destruct (string_dec (id r) (id e)) as [E|E].
  - assert (r = e) by (eapply same_key_same_row; eassumption). subst r.
    exists (setUser2Id u e). split; [apply updateWhereId_hit; [exact He|reflexivity]|].
    unfold succeeds. simpl. repeat split; auto. intros u' Hu'. congruence.
  - exists r. split; [apply updateWhereId_miss; assumption|apply succeeds_refl].
Qed.

Lemma bindingsSound_advance (us : list (string * ChatUser)) (t t' : list ChatRoom) :
  roomsAdvance t t' -> bindingsSound us t -> bindingsSound us t'.
Proof.
  intros Hadv Hb k e r Hin Hr. destruct (Hb k e r Hin Hr) as [room [Hroom [Hid Hp]]].
  destruct (Hadv room Hroom) as [room' [Hroom' Hs]]. exists room'.
  split; [exact Hroom'|]. split.
  - destruct Hs as [E _]. congruence.
  - eapply succeeds_participant; eassumption.
Qed.

Lemma logSound_advance (log : list Message) (t t' : list ChatRoom) :
  roomsAdvance t t' -> logSound log t -> logSound log t'.
Proof.
  intros Hadv Hl m Hm. destruct (Hl m Hm) as [room [Hroom [Hid Hp]]].
  destruct (Hadv room Hroom) as [room' [Hroom' Hs]]. exists room'.
  split; [exact Hroom'|]. split.
  - destruct Hs as [E _]. congruence.
  - eapply succeeds_participant; eassumption.
Qed.

Lemma waitingFor_split (user : string) (r : ChatRoom) :
  waitingFor user r = isWaiting r && negb (String.eqb (user1Id r) user).
Proof. reflexivity. Qed.

Lemma oneWaits_end (k : string) (n : Time) (t : list ChatRoom) :
  oneWaits t -> oneWaits (updateWhereId k (setEnded n) t).
Proof.
  intros H a b Ha Hb Wa Wb.
  apply updateWhereId_In in Ha. apply updateWhereId_In in Hb.
  destruct Ha as [a0 [Ha0 [[_ ->]|[_ ->]]]];
    [unfold isWaiting in Wa; simpl in Wa; rewrite andb_false_r in Wa; discriminate|].
  destruct Hb as [b0 [Hb0 [[_ ->]|[_ ->]]]];
    [unfold isWaiting in Wb; simpl in Wb; rewrite andb_false_r in Wb; discriminate|].
  apply H; assumption.
Qed.

Lemma oneWaits_pair (k u : string) (t : list ChatRoom) :
  oneWaits t -> oneWaits (updateWhereId k (setUser2Id u) t).
Proof.
  intros H a b Ha Hb Wa Wb.
  apply updateWhereId_In in Ha. apply updateWhereId_In in Hb.
  destruct Ha as [a0 [Ha0 [[_ ->]|[_ ->]]]]; [discriminate Wa|].
  destruct Hb as [b0 [Hb0 [[_ ->]|[_ ->]]]]; [discriminate Wb|].
  apply H; assumption.
Qed.

Lemma oneWaits_insert (w : World) (user : string) (t : list ChatRoom) :
  (forall r, In r t -> waitingFor user r = false) ->
  oneWaits t ->
  oneWaits (t ++ [mkChatRoom (uuid w) user None true (now w) None]).
Proof.
  intros Hnone H.
  assert (Hown : forall r, In r t -> isWaiting r = true -> user1Id r = user).
  { intros r Hr Wr. specialize (Hnone r Hr). rewrite waitingFor_split, Wr in Hnone.
    simpl in Hnone. apply negb_false_iff, String.eqb_eq in Hnone. exact Hnone. }
  intros a b Ha Hb Wa Wb.
  apply in_app_or in Ha. apply in_app_or in Hb.
  destruct Ha as [Ha|[<-|[]]]; destruct Hb as [Hb|[<-|[]]]; simpl.
  - apply H; assumption.
  - apply Hown; assumption.
  - symmetry. apply Hown; assumption.
  - reflexivity.
Qed.

End Advance.

Section RegistryShape.

Lemma mapGet_In (k : string) (e : ChatUser) (m : list (string * ChatUser)) :
  mapGet k m = Some e -> In (k, e) m.
Proof.
  induction m as [|[k0 e0] m IH]; simpl; [discriminate|].
  destruct (String.eqb k0 k) eqn:E.
  - apply String.eqb_eq in E. intros H. inversion H. subst. left. reflexivity.
  - intros H. right. apply IH. exact H.
Qed.

Lemma mapGet_absent (k : string) (m : list (string * ChatUser)) :
  ~ In k (map fst m) -> mapGet k m = None.
Proof.
  induction m as [|[k0 e0] m IH]; simpl; intros H; [reflexivity|].
  destruct (String.eqb k0 k) eqn:E.
  - apply String.eqb_eq in E. exfalso. apply H. left. exact E.
  - apply IH. intros Hin. apply H. right. exact Hin.
Qed.

Lemma mapGet_mapSet_other (k k' : string) (u : ChatUser) (m : list (string * ChatUser)) :
  k <> k' -> mapGet k' (mapSet k u m) = mapGet k' m.
Proof.
  intros Hne. apply String.eqb_neq in Hne.
  induction m as [|[k0 u0] m IH]; simpl.
  - rewrite Hne. reflexivity.
  - destruct (String.eqb k0 k) eqn:E0; simpl.
    + apply String.eqb_eq in E0. subst k0. rewrite Hne. reflexivity.
    + destruct (String.eqb k0 k'); [reflexivity|exact IH].
Qed.

Lemma mapSet_In (k : string) (v : ChatUser) (m : list (string * ChatUser))
    (k' : string) (e' : ChatUser) :
  In (k', e') (mapSet k v m) -> (k', e') = (k, v) \/ In (k', e') m.
Proof.
  induction m as [|[k0 e0] m IH]; simpl.
  - intros [H|[]]. left. symmetry. exact H.
  - destruct (String.eqb k0 k); simpl.
    + intros [H|H]; [left; symmetry; exact H|right; right; exact H].
    + intros [H|H]; [right; left; exact H|].
      destruct (IH H) as [K|K]; [left; exact K|right; right; exact K].
Qed.

Lemma mapSet_keys (k : string) (v : ChatUser) (m : list (string * ChatUser)) (x : string) :
  In x (map fst (mapSet k v m)) -> x = k \/ In x (map fst m).
Proof.
  rewrite in_map_iff. intros [[k' e'] [E H]]. simpl in E. subst x.
  destruct (mapSet_In k v m k' e' H) as [K|K].
  - left. congruence.
  - right. apply in_map_iff. exists (k', e'). auto.
Qed.

Lemma mapSet_NoDup (k : string) (v : ChatUser) (m : list (string * ChatUser)) :
  NoDup (map fst m) -> NoDup (map fst (mapSet k v m)).
Proof.
  induction m as [|[k0 e0] m IH]; simpl; intros H.
  - repeat constructor. intros [].
  - inversion H as [|? ? Hnotin Hnd]; subst.
    destruct (String.eqb k0 k) eqn:E; simpl.
    + apply String.eqb_eq in E. subst k0. constructor; assumption.
    + apply String.eqb_neq in E. constructor; [|apply IH; exact Hnd].
      intros Hin. destruct (mapSet_keys k v m k0 Hin) as [K|K]; [congruence|contradiction].
Qed.

Lemma mapAssign_keys (k : string) (v : option string) (m : list (string * ChatUser)) :
  map fst (mapAssign k v m) = map fst m.
Proof.
  unfold mapAssign. rewrite map_map. apply map_ext.
  intros [k0 e0]. simpl. destruct (String.eqb k0 k); reflexivity.
Qed.

Lemma mapAssign_In (k : string) (v : option string) (m : list (string * ChatUser))
    (k' : string) (e' : ChatUser) :
  In (k', e') (mapAssign k v m) ->
  exists e0, In (k', e0) m /\ (e' = e0 \/ (k' = k /\ e' = setChatRoomId v e0)).
Proof.
  unfold mapAssign. rewrite in_map_iff. intros [[k0 e0] [E H]]. simpl in E.
  destruct (String.eqb k0 k) eqn:Ek; inversion E; subst.
  - apply String.eqb_eq in Ek. exists e0. auto.
  - exists e'. auto.
Qed.

Lemma filter_keys_NoDup (p : string * ChatUser -> bool) (m : list (string * ChatUser)) :
  NoDup (map fst m) -> NoDup (map fst (filter p m)).
Proof.
  induction m as [|[k0 e0] m IH]; simpl; intros H; [constructor|].
  inversion H as [|? ? Hnotin Hnd]; subst.
  destruct (p (k0, e0)); simpl; [|apply IH; exact Hnd].
  constructor; [|apply IH; exact Hnd].
  intros Hin. apply Hnotin. apply in_map_iff in Hin. destruct Hin as [x [E Hx]].
  apply filter_In in Hx. apply in_map_iff. exists x. tauto.
Qed.

Lemma advInv_core (t0 : list ChatRoom) (st st' : State) :
  core st = core st' -> advInv t0 st -> advInv t0 st'.
Proof.
  unfold core. intros E. inversion E as [[Hu Hr Hm]].
  unfold advInv, serverInv, roomsInv. rewrite Hu, Hr, Hm. tauto.
Qed.

Lemma advInv_set (t0 : list ChatRoom) (st : State) (key : string) (s : Socket)
    (language : string) :
  advInv t0 st ->
  advInv t0 (withUsers (mapSet key (mkChatUser key s None language) (users st)) st).
Proof.
  intros [[Hrooms [[Hnd Hid] [Hb [Hw Hl]]]] Hadv].
  repeat split; simpl; try assumption; try apply Hrooms.
  - apply mapSet_NoDup. exact Hnd.
  - intros k e Hin. apply mapSet_In in Hin. destruct Hin as [E|Hin].
    + inversion E. reflexivity.
    + eapply Hid. exact Hin.
  - intros k e r Hin Hr. apply mapSet_In in Hin. destruct Hin as [E|Hin].
    + inversion E. subst. discriminate.
    + eapply Hb; eassumption.
Qed.

Lemma advInv_unbind (t0 : list ChatRoom) (st : State) (k : string) :
  advInv t0 st -> advInv t0 (withUsers (mapAssign k None (users st)) st).
Proof.
  intros [[Hrooms [[Hnd Hid] [Hb [Hw Hl]]]] Hadv].
  repeat split; simpl; try assumption; try apply Hrooms.
  - rewrite mapAssign_keys. exact Hnd.
  - intros k' e' Hin. apply mapAssign_In in Hin.
    destruct Hin as [e0 [Hin [->|[_ ->]]]]; simpl; eapply Hid; exact Hin.
  - intros k' e' r Hin Hr. apply mapAssign_In in Hin.
    destruct Hin as [e0 [Hin [->|[_ ->]]]]; [eapply Hb; eassumption|discriminate].
Qed.

Lemma advInv_bind (t0 : list ChatRoom) (st : State) (k : string) (room : ChatRoom) :
  advInv t0 st -> In room (db_chatRooms st) -> participant k room ->
  advInv t0 (withUsers (mapAssign k (Some (id room)) (users st)) st).
Proof.
  intros [[Hrooms [[Hnd Hid] [Hb [Hw Hl]]]] Hadv] Hroom Hp.
  repeat split; simpl; try assumption; try apply Hrooms.
  - rewrite mapAssign_keys. exact Hnd.
  - intros k' e' Hin. apply mapAssign_In in Hin.
    destruct Hin as [e0 [Hin [->|[_ ->]]]]; simpl; eapply Hid; exact Hin.
  - intros k' e' r Hin Hr. apply mapAssign_In in Hin.
    destruct Hin as [e0 [Hin [->|[-> ->]]]]; [eapply Hb; eassumption|].
    simpl in Hr. inversion Hr. subst r. exists room. auto.
Qed.

Lemma advInv_filter (t0 : list ChatRoom) (st : State) (p : string * ChatUser -> bool) :
  advInv t0 st -> advInv t0 (withUsers (filter p (users st)) st).
Proof.
  intros [[Hrooms [[Hnd Hid] [Hb [Hw Hl]]]] Hadv].
  repeat split; simpl; try assumption; try apply Hrooms.
  - apply filter_keys_NoDup. exact Hnd.
  - intros k e Hin. apply filter_In in Hin. eapply Hid. apply Hin.
  - intros k e r Hin Hr. apply filter_In in Hin. eapply Hb; [apply Hin|exact Hr].
Qed.

End RegistryShape.

Section Invariant.
Context {db : RowOrder}.

(** Reads and sends leave the registry, the sessions and the log alone. *)
Ltac core_untouched :=
  unfold getUser, getChatRoom, sendToUser, sendError, send, usersGet;
  repeat first [ split_step | apply preserves_modify; intros ? H; exact H ].

Lemma getUser_keeps_core (w : World) (k : string)
    (c : list (string * ChatUser) * list ChatRoom * list Message) :
  preserves (fun st => core st = c) (getUser w k).
Proof. core_untouched. Qed.

Lemma getChatRoom_keeps_core (w : World) (key : option string)
    (c : list (string * ChatUser) * list ChatRoom * list Message) :
  preserves (fun st => core st = c) (getChatRoom w key).
Proof. core_untouched. Qed.

Lemma usersGet_keeps_core (key : option string)
    (c : list (string * ChatUser) * list ChatRoom * list Message) :
  preserves (fun st => core st = c) (usersGet key).
Proof. core_untouched. Qed.

Lemma sendToUser_keeps_core (key : option string) (frame : ChatMessage)
    (c : list (string * ChatUser) * list ChatRoom * list Message) :
  preserves (fun st => core st = c) (sendToUser key frame).
Proof. core_untouched. Qed.

Lemma sendError_keeps_core (s : Socket) (e : string)
    (c : list (string * ChatUser) * list ChatRoom * list Message) :
  preserves (fun st => core st = c) (sendError s e).
Proof. core_untouched. Qed.

Lemma core_kept (A : Type) (P : State -> Prop) (m : M A) :
  (forall st st', core st = core st' -> P st -> P st') ->
  (forall c, preserves (fun st => core st = c) m) ->
  preserves P m.
Proof.
  intros Hext Hm st HP. apply (Hext st); [|exact HP].
  symmetry. apply (Hm (core st) st eq_refl).
Qed.

Lemma advInv_room_core (t0 : list ChatRoom) (room : ChatRoom) (st st' : State) :
  core st = core st' ->
  advInv t0 st /\ In room (db_chatRooms st) ->
  advInv t0 st' /\ In room (db_chatRooms st').
Proof.
  intros E [H Hin]. split; [eapply advInv_core; eassumption|].
  assert (Hr : db_chatRooms st = db_chatRooms st') by (unfold core in E; congruence).
  rewrite <- Hr. exact Hin.
Qed.

(** What [findOrCreateChatRoom] returns is a row of the table in which the
    caller takes part; the registry and the log are as before. *)
Lemma findOrCreateChatRoom_advances (w : World) (key : string) (t0 : list ChatRoom)
    (st : State) :
  advInv t0 st ->
  advInv t0 (snd (findOrCreateChatRoom w key st)) /\
  forall room, fst (findOrCreateChatRoom w key st) = Ok room ->
    In room (db_chatRooms (snd (findOrCreateChatRoom w key st))) /\ participant key room.
Proof.
  intros [[Hrooms [Hreg [Hb [Hw Hl]]]] Hadv].
  pose proof (findOrCreateChatRoom_keeps_rooms w key st Hrooms) as Hrooms'.
  destruct Hrooms as [Hk Hs].
  destruct (findOrCreateChatRoom_outcome w key st Hk) as [e | e rest Hf Hfk | Hf Hpk Hfk].
  - split; [|intros room E; discriminate E].
    exact (conj (conj Hrooms' (conj Hreg (conj Hb (conj Hw Hl)))) Hadv).
  - destruct (waiting_row key (db_chatRooms st) e rest Hf) as [Hin [Hnull [Hact Hne]]].
    pose proof (roomsAdvance_pair key e (db_chatRooms st) Hk Hin Hnull) as Hstep.
    split.
    + split; [|eapply roomsAdvance_trans; eassumption].
      split; [exact Hrooms'|]. simpl. split; [exact Hreg|].
      split; [eapply bindingsSound_advance; eassumption|].
      split; [apply oneWaits_pair; exact Hw|eapply logSound_advance; eassumption].
    + intros room E. inversion E; subst. simpl.
      split; [apply updateWhereId_hit; [exact Hin|reflexivity]|right; reflexivity].
  - pose proof (roomsAdvance_insert (db_chatRooms st)
                  [mkChatRoom (uuid w) key None true (now w) None]) as Hstep.
    split.
    + split; [|eapply roomsAdvance_trans; eassumption].
      split; [exact Hrooms'|]. simpl. split; [exact Hreg|].
      split; [eapply bindingsSound_advance; eassumption|].
      split; [|eapply logSound_advance; eassumption].
      apply oneWaits_insert; [|exact Hw].
      intros r Hr.
      destruct (waitingFor key r) eqn:Wr; [|reflexivity].
      assert (Hin : In r (filter (waitingFor key) (scanRooms (db_chatRooms st)))).
      { apply filter_In. split; [apply scanRooms_In; exact Hr|exact Wr]. }
      rewrite Hf in Hin. destruct Hin.
    + intros room E. inversion E; subst. simpl.
      split; [apply in_or_app; right; left; reflexivity|left; reflexivity].
Qed.

Lemma endChatRoom_advances (w : World) (key : option string) (t0 : list ChatRoom) :
  preserves (advInv t0) (endChatRoom w key).
Proof.
  intros st H.
  pose proof (endChatRoom_keeps_rooms w key st (proj1 (proj1 H))) as Hrooms'.
  revert Hrooms'. unfold endChatRoom, bind, statement, modify, ret.
  destruct (dbFault w UpdateChatRooms); simpl; [intros _; exact H|].
  destruct key as [k|]; simpl; [|intros _; exact H].
  intros Hrooms'. destruct H as [[_ [Hreg [Hb [Hw Hl]]]] Hadv].
  pose proof (roomsAdvance_end k (now w) (db_chatRooms st)) as Hstep.
  split; [|eapply roomsAdvance_trans; eassumption].
  split; [exact Hrooms'|]. simpl. split; [exact Hreg|].
  split; [eapply bindingsSound_advance; eassumption|].
  split; [apply oneWaits_end; exact Hw|eapply logSound_advance; eassumption].
Qed.

Lemma advInv_log (t0 : list ChatRoom) (st : State) (saved : Message) (room : ChatRoom) :
  advInv t0 st -> In room (db_chatRooms st) -> id room = msg_chatRoomId saved ->
  participant (msg_senderId saved) room ->
  advInv t0 (withMessages (db_messages st ++ [saved]) st).
Proof.
  intros [[Hrooms [Hreg [Hb [Hw Hl]]]] Hadv] Hin Hid Hp.
  repeat split; simpl; try assumption; try apply Hrooms; try apply Hreg.
  intros m Hm. apply in_app_or in Hm. destruct Hm as [Hm|[<-|[]]].
  - apply Hl. exact Hm.
  - exists room. auto.
Qed.

End Invariant.

Section InvariantOfHandlers.
Context {db : RowOrder}.

Lemma tryCatch_keeps (A : Type) (P : State -> Prop) (m : M A) (h : string -> M A)
    (st : State) :
  P (snd (m st)) -> (forall e, preserves P (h e)) -> P (snd (tryCatch m h st)).
Proof.
  intros Hm Hh. unfold tryCatch. destruct (m st) as [[a|e] st']; simpl in *.
  - exact Hm.
  - apply Hh. exact Hm.
Qed.

Lemma truthy_Some (v : option string) (x : string) : truthy v = Some x -> v = Some x.
Proof.
  destruct v as [y|]; simpl; [|discriminate].
  destruct (String.eqb y ""); [discriminate|]. intros E. exact E.
Qed.

Lemma strictEq_eq (a b : option string) : strictEq a b = true -> a = b.
Proof.
  destruct a as [x|], b as [y|]; simpl; try discriminate; try reflexivity.
  intros E. apply String.eqb_eq in E. congruence.
Qed.

Ltac core_step :=
  apply core_kept;
  [ intros ? ? Ec HT; first [ eapply advInv_room_core; eassumption
                            | eapply advInv_core; eassumption ]
  | intro; first [ apply getUser_keeps_core | apply getChatRoom_keeps_core
                 | apply sendToUser_keeps_core | apply sendError_keeps_core
                 | apply usersGet_keeps_core ] ].

Lemma sendError_advances (s : Socket) (e : string) (t0 : list ChatRoom) :
  preserves (advInv t0) (sendError s e).
Proof. core_step. Qed.

Lemma matchUsers_advances (w : World) (key : string) (t0 : list ChatRoom) :
  preserves (advInv t0) (matchUsers w key).
Proof.
  intros st H. unfold matchUsers.
  rewrite (bind_ok (usersGet (Some key)) _ st st (mapGet key (users st)) eq_refl).
  destruct (mapGet key (users st)) as [user|]; [|exact H].
  apply tryCatch_keeps; [|intro; core_step].
  destruct (findOrCreateChatRoom_advances w key t0 st H) as [H3 Hroom].
  unfold bind at 1.
  destruct (findOrCreateChatRoom w key st) as [[room|e] st3]; simpl in H3, Hroom |- *;
    [|exact H3].
  destruct (Hroom room eq_refl) as [Hin Hp].
  rewrite bind_modify.
  set (st4 := withUsers (mapAssign key (Some (id room)) (users st3)) st3).
  match goal with |- advInv t0 (snd (?m st4)) => set (rest := m) end.
  set (T := fun st => advInv t0 st /\ In room (db_chatRooms st)).
  assert (Hrest : preserves T rest).
  { subst rest T.
    destruct (truthy (user2Id room)) as [user2|] eqn:Hu2; [|core_step].
    assert (Hother : participant (if String.eqb (user1Id room) key then user2
                                  else user1Id room) room).
    { destruct (String.eqb (user1Id room) key).
      - right. apply truthy_Some. exact Hu2.
      - left. reflexivity. }
    repeat first
      [ core_step
      | split_step
      | apply preserves_modify; intros ? [HI Hin'];
        split; [apply advInv_bind; assumption | exact Hin'] ]. }
  apply (Hrest st4). split; [apply advInv_bind; assumption|exact Hin].
Qed.

Lemma handleUserJoin_advances (w : World) (s : Socket) (message : ClientMessage)
    (t0 : list ChatRoom) :
  preserves (advInv t0) (handleUserJoin w s message).
Proof.
  unfold handleUserJoin.
  repeat first
    [ apply matchUsers_advances
    | core_step
    | split_step
    | apply preserves_modify; intros ? HI; apply advInv_set; exact HI ].
Qed.

Lemma handleSendMessage_advances (w : World) (s : Socket) (message : ClientMessage)
    (t0 : list ChatRoom) :
  preserves (advInv t0) (handleSendMessage w s message).
Proof.
  intros st H. unfold handleSendMessage.
  rewrite (bind_ok (usersGet (m_userId message)) _ st st
             (match m_userId message with
              | Some k => mapGet k (users st)
              | None => None
              end) eq_refl).
  destruct (m_userId message) as [key|]; [|apply sendError_advances; exact H].
  destruct (mapGet key (users st)) as [user|] eqn:Huser;
    [|apply sendError_advances; exact H].
  destruct (strictEq (chatRoomId user) (m_chatRoomId message)) eqn:Hg; simpl;
    [|apply sendError_advances; exact H].
  apply tryCatch_keeps; [|intro; core_step].
  unfold bind at 1.
  destruct (createMessage w _ st) as [[saved|e] st1] eqn:Esave; simpl.
  - destruct (createMessage_stored _ _ _ _ _ Esave) as [-> [Hc [Hs _]]].
    simpl in Hc, Hs.
    assert (Hst1 : advInv t0 (withMessages (db_messages st ++ [saved]) st)).
    { apply strictEq_eq in Hg. rewrite Hc in Hg.
      destruct H as [Hinv Hadv].
      destruct (proj1 (proj2 (proj2 Hinv)) key user (msg_chatRoomId saved)
                  (mapGet_In _ _ _ Huser) Hg) as [room [Hin [Hid Hp]]].
      apply advInv_log with (room := room); [split; assumption|exact Hin|exact Hid|].
      inversion Hs. subst. exact Hp. }
    revert Hst1. generalize (withMessages (db_messages st ++ [saved]) st).
    repeat first [ core_step | split_step ].
  - pose proof (createMessage_refused _ _ _ _ _ Esave) as ->. exact H.
Qed.

Lemma handleTranslateMessage_advances (w : World) (s : Socket) (message : ClientMessage)
    (t0 : list ChatRoom) :
  preserves (advInv t0) (handleTranslateMessage w s message).
Proof. unfold handleTranslateMessage. repeat first [ core_step | split_step ]. Qed.

Lemma handleTyping_advances (w : World) (s : Socket) (message : ClientMessage)
    (t0 : list ChatRoom) :
  preserves (advInv t0) (handleTyping w s message).
Proof. unfold handleTyping. repeat first [ core_step | split_step ]. Qed.

Lemma handleLeaveChat_advances (w : World) (s : Socket) (message : ClientMessage)
    (t0 : list ChatRoom) :
  preserves (advInv t0) (handleLeaveChat w s message).
Proof.
  unfold handleLeaveChat.
  repeat first
    [ apply endChatRoom_advances
    | core_step
    | split_step
    | apply preserves_modify; intros ? HI; apply advInv_unbind; exact HI ].
Qed.

Lemma handleDisconnection_advances (w : World) (s : Socket) (t0 : list ChatRoom) :
  preserves (advInv t0) (handleDisconnection w s).
Proof.
  intros st H. unfold handleDisconnection.
  rewrite (bind_ok get _ st st st eq_refl). cbv zeta. rewrite bind_modify.
  apply preserves_forEach; [|apply advInv_filter; exact H].
  intros x. destruct (truthy (chatRoomId (snd x)));
    [apply handleLeaveChat_advances|apply preserves_ret].
Qed.

Lemma onMessage_advances (w : World) (s : Socket) (data : option ClientMessage)
    (t0 : list ChatRoom) :
  preserves (advInv t0) (onMessage w s data).
Proof.
  unfold onMessage. apply preserves_tryCatch; [|intro; apply sendError_advances].
  destruct data as [message|]; [|apply preserves_throw].
  unfold handleMessage.
  repeat match goal with
         | |- preserves _ (match ?x with _ => _ end) => destruct x
         | |- preserves _ (if ?x then _ else _) => destruct x
         end;
  first [ apply handleUserJoin_advances | apply handleSendMessage_advances
        | apply handleTranslateMessage_advances | apply handleTyping_advances
        | apply handleLeaveChat_advances | apply sendError_advances ].
Qed.

Lemma step_advances (t0 : list ChatRoom) (st : State) (ev : Event) :
  advInv t0 st -> advInv t0 (step st ev).
Proof.
  intros H. destruct ev as [s|s data w|s w]; simpl.
  - exact H.
  - apply onMessage_advances. exact H.
  - apply handleDisconnection_advances. exact H.
Qed.

Lemma run_advances (t0 : list ChatRoom) (evs : list Event) (st : State) :
  advInv t0 st -> advInv t0 (run st evs).
Proof.
  revert st. induction evs as [|ev evs IH]; intros st H; simpl; [exact H|].
  apply IH. apply step_advances. exact H.
Qed.

Lemma reachable_serverInv (st : State) : reachable st -> serverInv st.
Proof.
  induction 1 as [directory|st ev _ IH].
  - unfold serverInv, roomsInv, keysUnique, noSelfPair, registryShape, bindingsSound,
           oneWaits, logSound. simpl.
    repeat split; try constructor; intros; contradiction.
  - apply (step_advances (db_chatRooms st) st ev (conj IH (roomsAdvance_refl _))).
Qed.

End InvariantOfHandlers.

Section Sessions.
Context {db : RowOrder}.

(** X1. In every reachable state, a registry entry that is bound to a
    session names a row of [chat_rooms] in which its user is the first or
    the second participant. *)
Theorem bound_entry_names_a_session_of_its_user (st : State) (k : string) (e : ChatUser)
    (r : string) :
  reachable st ->
  mapGet k (users st) = Some e ->
  chatRoomId e = Some r ->
  exists room, In room (db_chatRooms st) /\ id room = r /\ participant k room.
Proof.
  intros Hreach Hget Hr.
  destruct (reachable_serverInv st Hreach) as [_ [_ [Hb _]]].
  apply (Hb k e r); [apply mapGet_In; exact Hget|exact Hr].
Qed.

(** X2. In every reachable state all the sessions that wait for a second
    participant have the same first participant: two different users never
    wait at the same time. *)
Theorem at_most_one_user_waits (st : State) (a b : ChatRoom) :
  reachable st ->
  In a (db_chatRooms st) -> In b (db_chatRooms st) ->
  user2Id a = None -> isActive a = true ->
  user2Id b = None -> isActive b = true ->
  user1Id a = user1Id b.
Proof.
  intros Hreach Ha Hb Na Aa Nb Ab.
  destruct (reachable_serverInv st Hreach) as [_ [_ [_ [Hw _]]]].
  apply Hw; try assumption; unfold isWaiting.
  - rewrite Na, Aa. reflexivity.
  - rewrite Nb, Ab. reflexivity.
Qed.

(** X3. With the handlers run one at a time, each to its end before the next
    event is taken, every state reachable from a fresh server is such that
    each message of the log belongs to a session of [chat_rooms] and was sent
    by one of its two participants. *)
Theorem stored_messages_come_from_participants (st : State) (m : Message) :
  reachable st ->
  In m (db_messages st) ->
  exists room,
    In room (db_chatRooms st) /\ id room = msg_chatRoomId m /\
    participant (msg_senderId m) room.
Proof.
  intros Hreach Hm.
  destruct (reachable_serverInv st Hreach) as [_ [_ [_ [_ Hl]]]].
  apply Hl. exact Hm.
Qed.

(** X4. Sessions only move forward, with the handlers run one at a time,
    each to its end before the next event is taken.  Whatever events follow
    a state reachable in this way, every session of that state is still in
    the table afterwards with the same key, first participant and creation
    time; its second participant, once set, is the same; and once ended it
    stays ended. *)
Theorem sessions_only_move_forward (st : State) (evs : list Event) (old : ChatRoom) :
  reachable st ->
  In old (db_chatRooms st) ->
  exists new,
    In new (db_chatRooms (run st evs)) /\
    id new = id old /\
    user1Id new = user1Id old /\
    createdAt new = createdAt old /\
    (forall u, user2Id old = Some u -> user2Id new = Some u) /\
    (isActive old = false -> isActive new = false).
Proof.
  intros Hreach Hold.
  pose proof (run_advances (db_chatRooms st) evs st
                (conj (reachable_serverInv st Hreach) (roomsAdvance_refl _))) as [_ Hadv].
  exact (Hadv old Hold).
Qed.

End Sessions.

Section Runs.
Context {db : RowOrder}.

Lemma withUsers_same (st : State) : withUsers (users st) st = st.
Proof. destruct st. reflexivity. Qed.

(** [if (otherUserId) this.sendToUser(otherUserId, frame)] *)
Lemma notify_wire (other : option string) (frame : ChatMessage) (st : State) :
  match other with
  | Some o => sendToUser (Some o) frame
  | None => ret tt
  end st = (Ok tt, withWire (wire st ++ delivered st other frame) st).
Proof.
  destruct other as [o|]; [apply sendToUser_wire|].
  unfold ret. simpl. rewrite withWire_same. reflexivity.
Qed.

Lemma getChatRoom_finds (w : World) (room : ChatRoom) (st : State) :
  dbFault w SelectChatRooms = false ->
  keysUnique (db_chatRooms st) -> In room (db_chatRooms st) ->
  getChatRoom w (Some (id room)) st = (Ok (Some room), st).
Proof.
  intros Hsel Hk Hin. unfold getChatRoom. run_monad. rewrite Hsel. simpl.
  rewrite (scan_lookup _ room Hk Hin). reflexivity.
Qed.

Lemma endChatRoom_runs (w : World) (k : string) (st : State) :
  dbFault w UpdateChatRooms = false ->
  endChatRoom w (Some k) st =
    (Ok tt, withChatRooms (updateWhereId k (setEnded (now w)) (db_chatRooms st)) st).
Proof. intros Hupd. unfold endChatRoom. run_monad. rewrite Hupd. reflexivity. Qed.

Lemma handleLeaveChat_runs (w : World) (s : Socket) (st : State)
    (message : ClientMessage) (key : string) (room : ChatRoom) :
  m_userId message = Some key ->
  m_chatRoomId message = Some (id room) ->
  dbFault w UpdateChatRooms = false ->
  dbFault w SelectChatRooms = false ->
  keysUnique (db_chatRooms st) ->
  In room (db_chatRooms st) ->
  handleLeaveChat w s message st =
    (Ok tt,
     withUsers (mapAssign key None (users st))
       (withWire (wire st ++ delivered st (truthy (otherUserIdOf room (Some key)))
                               (UserLeftFrame "The other user has left the chat"))
          (withChatRooms (updateWhereId (id room) (setEnded (now w)) (db_chatRooms st))
             st))).
Proof.
  intros Hkey Hroom Hupd Hsel Hk Hin.
  set (t' := updateWhereId (id room) (setEnded (now w)) (db_chatRooms st)).
  assert (Hk' : keysUnique t').
  { unfold keysUnique, t'. rewrite updateWhereId_keys; [exact Hk|reflexivity]. }
  assert (Hin' : In (setEnded (now w) room) t').
  { apply updateWhereId_hit; [exact Hin|reflexivity]. }
  unfold handleLeaveChat, tryCatch. rewrite Hkey, Hroom.
  rewrite (bind_ok _ _ _ _ _ (endChatRoom_runs w (id room) st Hupd)). fold t'.
  rewrite (bind_ok _ _ _ _ _
             (getChatRoom_finds w (setEnded (now w) room) (withChatRooms t' st)
                Hsel Hk' Hin')).
  rewrite (bind_ok _ _ _ _ _ (notify_wire _ _ _)).
  replace (otherUserIdOf (setEnded (now w) room) (Some key))
    with (otherUserIdOf room (Some key)) by reflexivity.
  unfold usersGet. run_monad.
  destruct (mapGet key (users st)) as [me|] eqn:Hme; [reflexivity|].
  rewrite (mapAssign_absent key None (users st) Hme).
  match goal with |- (_, ?x) = (_, withUsers _ ?y) => change y with x end.
  rewrite <- (withUsers_same (withWire _ _)) at 1. reflexivity.
Qed.

(** X5. [leave_chat] is not reserved to the participants and does not look
    at the state of the session: for any user id, registered or not, and any
    existing session, when no statement is refused the session is marked
    ended with the time of the call as end timestamp, "participant left" is
    sent to the participant the code takes for the other one (the second
    participant when the caller is the first, else the first), and the
    caller's binding, if the caller is registered, is cleared. *)
Theorem leave_ends_the_session_for_any_caller (w : World) (s : Socket) (st : State)
    (message : ClientMessage) (key : string) (room : ChatRoom) :
  m_userId message = Some key ->
  m_chatRoomId message = Some (id room) ->
  dbFault w UpdateChatRooms = false ->
  dbFault w SelectChatRooms = false ->
  keysUnique (db_chatRooms st) ->
  In room (db_chatRooms st) ->
  handleLeaveChat w s message st =
    (Ok tt,
     withUsers (mapAssign key None (users st))
       (withWire (wire st ++ delivered st (truthy (otherUserIdOf room (Some key)))
                               (UserLeftFrame "The other user has left the chat"))
          (withChatRooms (updateWhereId (id room) (setEnded (now w)) (db_chatRooms st))
             st))) /\
  In (mkChatRoom (id room) (user1Id room) (user2Id room) false (createdAt room)
                 (Some (now w)))
     (updateWhereId (id room) (setEnded (now w)) (db_chatRooms st)).
Proof.
  intros Hkey Hroom Hupd Hsel Hk Hin. split.
  - apply handleLeaveChat_runs; assumption.
  - apply (updateWhereId_hit (id room) (setEnded (now w)) (db_chatRooms st) room Hin eq_refl).
Qed.

(** X6. When the update of [endChatRoom] goes through and the lookup that
    follows is refused, the leave is cut short without any answer: the
    session is ended, but nobody is notified and the caller stays bound to
    it. *)
Theorem leave_cut_short_keeps_the_binding (w : World) (s : Socket) (st : State)
    (message : ClientMessage) (k : string) :
  m_chatRoomId message = Some k ->
  dbFault w UpdateChatRooms = false ->
  dbFault w SelectChatRooms = true ->
  handleLeaveChat w s message st =
    (Ok tt, withChatRooms (updateWhereId k (setEnded (now w)) (db_chatRooms st)) st).
Proof.
  intros Hroom Hupd Hsel.
  unfold handleLeaveChat, tryCatch. rewrite Hroom.
  rewrite (bind_ok _ _ _ _ _ (endChatRoom_runs w k st Hupd)).
  unfold getChatRoom. run_monad. rewrite Hsel. reflexivity.
Qed.

(** X7. A typing signal from a member of the session, whose registry entry
    is bound to it, is forwarded, as one frame with the sender's id and the
    flag, to the other member of the session only -- to the second
    participant when the first signals, to the first when the second does --
    and never back to the sender; nothing is stored and nothing else
    changes. *)
Theorem typing_goes_to_the_other_participant_only (w : World) (s : Socket) (st : State)
    (message : ClientMessage) (key : string) (user : ChatUser) (room : ChatRoom)
    (peerId : string) :
  m_userId message = Some key ->
  m_chatRoomId message = Some (id room) ->
  mapGet key (users st) = Some user ->
  chatRoomId user = Some (id room) ->
  keysUnique (db_chatRooms st) ->
  In room (db_chatRooms st) ->
  (user1Id room = key /\ user2Id room = Some peerId) \/
  (user1Id room = peerId /\ user2Id room = Some key) ->
  peerId <> "" ->
  dbFault w SelectChatRooms = false ->
  let frame := TypingFrame (Some key) (m_isTyping message) in
  handleTyping w s message st =
    (Ok tt, withWire (wire st ++ delivered st (Some peerId) frame) st) /\
  (forall peer,
      mapGet peerId (users st) = Some peer ->
      isOpen (socket peer) st = true ->
      delivered st (Some peerId) frame = [(socket peer, frame)]).
Proof.
  intros Hkey Hroom Huser Hbound Hk Hin Hmember Hne Hsel frame. split.
  - unfold handleTyping. rewrite Hkey, Hroom.
    rewrite (bind_ok _ _ st st (Some user))
      by (unfold usersGet; run_monad; rewrite Huser; reflexivity).
    rewrite Hbound, strictEq_refl. simpl.
    rewrite (bind_ok _ _ _ _ _ (getChatRoom_finds w room st Hsel Hk Hin)).
    rewrite (otherUserIdOf_member room key peerId Hmember Hne).
    exact (sendToUser_wire (Some peerId) frame st).
  - intros peer Hpeer Hopen. unfold delivered. rewrite Hpeer, Hopen. reflexivity.
Qed.

(** X8. When the message is stored but the lookup of the session is then
    refused, the message stays in the log, no participant receives it, and
    the sender's socket is sent "Failed to send message". *)
Theorem stored_message_is_not_relayed_when_lookup_fails (w : World) (s : Socket)
    (st st1 : State) (message : ClientMessage) (key : string) (user : ChatUser)
    (saved : Message) :
  m_userId message = Some key ->
  mapGet key (users st) = Some user ->
  strictEq (chatRoomId user) (m_chatRoomId message) = true ->
  createMessage w (mkInsertMessage (m_chatRoomId message) (Some key)
                                   (m_content message) (preferredLanguage user)) st
    = (Ok saved, st1) ->
  dbFault w SelectChatRooms = true ->
  handleSendMessage w s message st =
    (Ok tt,
     withWire (wire st ++ reported st s "Failed to send message")
              (withMessages (db_messages st ++ [saved]) st)).
Proof.
  intros Hkey Huser Hbound Hsave Hsel.
  destruct (createMessage_stored _ _ _ _ _ Hsave) as [-> _].
  unfold handleSendMessage. rewrite Hkey.
  rewrite (bind_ok _ _ st st (Some user))
    by (unfold usersGet; run_monad; rewrite Huser; reflexivity).
  rewrite Hbound. simpl. unfold tryCatch.
  rewrite (bind_ok _ _ _ _ _ Hsave).
  rewrite (bind_throw _ _ _ (withMessages (db_messages st ++ [saved]) st) "database error").
  - rewrite sendError_wire. reflexivity.
  - unfold getChatRoom. run_monad. rewrite Hsel. reflexivity.
Qed.

End Runs.

Section Joins.
Context {db : RowOrder}.

Lemma truthy_idem (v : option string) (k : string) :
  truthy v = Some k -> truthy (Some k) = Some k.
Proof.
  destruct v as [y|]; simpl; [|discriminate].
  destruct (String.eqb y "") eqn:E; [discriminate|].
  intros H. inversion H. subst. rewrite E. reflexivity.
Qed.

Lemma join_enters_matching (w : World) (s : Socket) (st : State) (message : ClientMessage)
    (key : string) (record : User) :
  truthy (m_userId message) = Some key ->
  fst (getUser w key st) = Ok (Some record) ->
  handleUserJoin w s message st =
    matchUsers w key
      (withUsers
         (mapSet key
            (mkChatUser key s None
               (orElse (m_preferredLanguage message) (user_preferredLanguage record)))
            (users st)) st).
Proof.
  intros Hkey Hget. unfold handleUserJoin. rewrite Hkey.
  rewrite (bind_ok _ _ st st (Some record))
    by (rewrite (getUser_state w key st), Hget; reflexivity).
  rewrite bind_modify. reflexivity.
Qed.

Lemma getUser_elsewhere (w : World) (k : string) (st st' : State) (r : option User) :
  db_users st' = db_users st ->
  fst (getUser w k st) = Ok r ->
  getUser w k st' = (Ok r, st').
Proof.
  intros Hd Hget. rewrite (getUser_state w k st'). f_equal.
  rewrite <- Hget. unfold getUser. run_monad.
  destruct (dbFault w SelectUsers); simpl; [reflexivity|]. rewrite Hd. reflexivity.
Qed.

(** X9. A join of a directory user when no session of another user waits
    creates a session with the joiner as only participant, binds the
    joiner's new registry entry to it, and sends "waiting" to the joining
    socket and nothing to anybody else. *)
Theorem join_without_partner_waits (w : World) (s : Socket) (st : State)
    (message : ClientMessage) (key : string) (record : User) :
  truthy (m_userId message) = Some key ->
  fst (getUser w key st) = Ok (Some record) ->
  dbFault w SelectChatRooms = false ->
  dbFault w InsertChatRooms = false ->
  hasChatRoom (uuid w) (db_chatRooms st) = false ->
  filter (waitingFor key) (scanRooms (db_chatRooms st)) = [] ->
  let language := orElse (m_preferredLanguage message) (user_preferredLanguage record) in
  handleUserJoin w s message st =
    (Ok tt,
     withWire (wire st ++ if isOpen s st
                          then [(s, WaitingFrame "Waiting for another user to join...")]
                          else [])
       (withUsers (mapAssign key (Some (uuid w))
                     (mapSet key (mkChatUser key s None language) (users st)))
          (withChatRooms (db_chatRooms st ++ [mkChatRoom (uuid w) key None true (now w) None])
             st))).
Proof.
  intros Hkey Hget Hsel Hins Hfresh Hf language.
  pose proof (getUser_found w key st record Hget) as Hfk.
  rewrite (join_enters_matching w s st message key record Hkey Hget). fold language.
  set (chatUser := mkChatUser key s None language).
  set (st2 := withUsers (mapSet key chatUser (users st)) st).
  unfold matchUsers.
  rewrite (bind_ok _ _ st2 st2 (Some chatUser))
    by (unfold usersGet; run_monad; rewrite mapGet_mapSet_same; reflexivity).
  unfold tryCatch.
  rewrite (bind_ok _ _ _ _ _ (findOrCreateChatRoom_creates w key st2 Hsel Hins Hfk Hfresh Hf)).
  rewrite bind_modify. cbn [truthy user2Id id].
  rewrite sendToUser_wire. unfold delivered, st2. cbn [users withUsers withChatRooms].
  rewrite mapGet_mapAssign_same, mapGet_mapSet_same. reflexivity.
Qed.

(** X10. A join whose search for a session is refused by the database is
    answered "Failed to join chat"; the joiner's registry entry has already
    been replaced and stays, bound to no session. *)
Theorem join_refused_leaves_the_user_registered (w : World) (s : Socket) (st : State)
    (message : ClientMessage) (key : string) (record : User) :
  truthy (m_userId message) = Some key ->
  fst (getUser w key st) = Ok (Some record) ->
  dbFault w SelectChatRooms = true ->
  let language := orElse (m_preferredLanguage message) (user_preferredLanguage record) in
  handleUserJoin w s message st =
    (Ok tt,
     withWire (wire st ++ reported st s "Failed to join chat")
       (withUsers (mapSet key (mkChatUser key s None language) (users st)) st)).
Proof.
  intros Hkey Hget Hsel language.
  rewrite (join_enters_matching w s st message key record Hkey Hget). fold language.
  set (chatUser := mkChatUser key s None language).
  set (st2 := withUsers (mapSet key chatUser (users st)) st).
  unfold matchUsers.
  rewrite (bind_ok _ _ st2 st2 (Some chatUser))
    by (unfold usersGet; run_monad; rewrite mapGet_mapSet_same; reflexivity).
  unfold tryCatch.
  rewrite (bind_throw _ _ st2 st2 "database error")
    by (unfold findOrCreateChatRoom; run_monad; rewrite Hsel; reflexivity).
  rewrite sendError_wire. reflexivity.
Qed.

End Joins.

Section Pairing.
Context {db : RowOrder}.

(** What pairing shares: the joiner enters matching, finds the waiting
    session [existing] first, becomes its second participant and is bound to
    it; the code takes the owner of the session for the other user. *)
Lemma join_reaches_the_owner (w : World) (s : Socket) (st : State)
    (message : ClientMessage) (key : string) (record : User)
    (existing : ChatRoom) (rest : list ChatRoom) :
  truthy (m_userId message) = Some key ->
  fst (getUser w key st) = Ok (Some record) ->
  dbFault w SelectChatRooms = false ->
  dbFault w UpdateChatRooms = false ->
  keysUnique (db_chatRooms st) ->
  filter (waitingFor key) (scanRooms (db_chatRooms st)) = existing :: rest ->
  let chatUser := mkChatUser key s None
        (orElse (m_preferredLanguage message) (user_preferredLanguage record)) in
  let st4 :=
    withUsers (mapAssign key (Some (id existing)) (mapSet key chatUser (users st)))
      (withChatRooms (updateWhereId (id existing) (setUser2Id key) (db_chatRooms st)) st) in
  handleUserJoin w s message st =
    tryCatch
      (otherUser <- usersGet (Some (user1Id existing)) ;;
       match otherUser with
       | Some otherUser =>
           modify (fun st =>
             withUsers (mapAssign (user1Id existing) (Some (id existing)) (users st)) st) ;;;
           userDetails <- getUser w key ;;
           otherUserDetails <- getUser w (user1Id existing) ;;
           sendToUser (Some key)
             (UserJoinedFrame (id existing) (user1Id existing)
                (displayName otherUserDetails) (preferredLanguage otherUser)) ;;;
           sendToUser (Some (user1Id existing))
             (UserJoinedFrame (id existing) key
                (displayName userDetails) (preferredLanguage chatUser))
       | None => ret tt
       end)
      (fun _ => sendError (socket chatUser) "Failed to join chat") st4.
Proof.
  intros Hkey Hget Hsel Hupd Hk Hf chatUser st4.
  pose proof (getUser_found w key st record Hget) as Hfk.
  destruct (waiting_row key (db_chatRooms st) existing rest Hf) as [_ [_ [_ Hne]]].
  rewrite (join_enters_matching w s st message key record Hkey Hget). fold chatUser.
  set (st2 := withUsers (mapSet key chatUser (users st)) st).
  unfold matchUsers.
  rewrite (bind_ok _ _ st2 st2 (Some chatUser))
    by (unfold usersGet; run_monad; rewrite mapGet_mapSet_same; reflexivity).
  unfold tryCatch.
  rewrite (bind_ok _ _ _ _ _
             (findOrCreateChatRoom_joins w key st2 existing rest Hsel Hupd Hfk Hk Hf)).
  rewrite bind_modify. cbn [user2Id user1Id id setUser2Id].
  rewrite (truthy_idem _ _ Hkey).
  apply String.eqb_neq in Hne. rewrite Hne. reflexivity.
Qed.

(** X11. A join of a directory user while a session of another, registered
    user waits makes the joiner its second participant, binds both registry
    entries to it, and sends each of the two a "user joined" frame with the
    session id and the other one's id, display name and language. *)
Theorem join_pairs_and_notifies_both (w : World) (s : Socket) (st : State)
    (message : ClientMessage) (key : string) (record : User)
    (existing : ChatRoom) (rest : list ChatRoom) (owner : ChatUser)
    (ownerDetails : option User) :
  truthy (m_userId message) = Some key ->
  fst (getUser w key st) = Ok (Some record) ->
  fst (getUser w (user1Id existing) st) = Ok ownerDetails ->
  dbFault w SelectChatRooms = false ->
  dbFault w UpdateChatRooms = false ->
  keysUnique (db_chatRooms st) ->
  filter (waitingFor key) (scanRooms (db_chatRooms st)) = existing :: rest ->
  mapGet (user1Id existing) (users st) = Some owner ->
  let language := orElse (m_preferredLanguage message) (user_preferredLanguage record) in
  handleUserJoin w s message st =
    (Ok tt,
     withWire
       (wire st
        ++ (if isOpen s st
            then [(s, UserJoinedFrame (id existing) (user1Id existing)
                        (displayName ownerDetails) (preferredLanguage owner))]
            else [])
        ++ (if isOpen (socket owner) st
            then [(socket owner, UserJoinedFrame (id existing) key
                                   (displayName (Some record)) language)]
            else []))
       (withUsers
          (mapAssign (user1Id existing) (Some (id existing))
             (mapAssign key (Some (id existing))
                (mapSet key (mkChatUser key s None language) (users st))))
          (withChatRooms (updateWhereId (id existing) (setUser2Id key) (db_chatRooms st))
             st))).
Proof.
  intros Hkey Hget Hgeto Hsel Hupd Hk Hf Howner language.
  destruct (waiting_row key (db_chatRooms st) existing rest Hf) as [_ [_ [_ Hne]]].
  rewrite (join_reaches_the_owner w s st message key record existing rest
             Hkey Hget Hsel Hupd Hk Hf).
  fold language.
  set (chatUser := mkChatUser key s None language).
  set (other := user1Id existing) in *.
  set (us2 := mapAssign key (Some (id existing)) (mapSet key chatUser (users st))).
  assert (Hother2 : mapGet other us2 = Some owner).
  { unfold us2. rewrite mapGet_mapAssign_other by congruence.
    rewrite mapGet_mapSet_other by congruence. exact Howner. }
  assert (Hkey2 : mapGet key (mapAssign other (Some (id existing)) us2)
                  = Some (setChatRoomId (Some (id existing)) chatUser)).
  { rewrite mapGet_mapAssign_other by exact Hne.
    unfold us2. rewrite mapGet_mapAssign_same, mapGet_mapSet_same. reflexivity. }
  assert (Hother3 : mapGet other (mapAssign other (Some (id existing)) us2)
                    = Some (setChatRoomId (Some (id existing)) owner)).
  { rewrite mapGet_mapAssign_same, Hother2. reflexivity. }
  unfold tryCatch.
  match goal with |- context [usersGet (Some other)] =>
    rewrite (bind_ok (usersGet (Some other)) _ _ _ (Some owner))
      by (unfold usersGet; run_monad; fold us2; rewrite Hother2; reflexivity)
  end.
  rewrite bind_modify.
  match goal with |- context [bind (getUser w key) ?k ?x] =>
    rewrite (bind_ok (getUser w key) k x x (Some record))
      by (apply getUser_elsewhere with (st := st); [reflexivity|exact Hget])
  end.
  match goal with |- context [bind (getUser w other) ?k ?x] =>
    rewrite (bind_ok (getUser w other) k x x ownerDetails)
      by (apply getUser_elsewhere with (st := st); [reflexivity|exact Hgeto])
  end.
  rewrite (bind_ok _ _ _ _ _ (sendToUser_wire _ _ _)).
  rewrite sendToUser_wire.
  unfold delivered. cbn [users withUsers withChatRooms withWire]. fold us2.
  rewrite Hkey2, Hother3. rewrite app_assoc. reflexivity.
Qed.

(** X12. When the owner of the waiting session has no registry entry, the
    joiner is made its second participant and bound to it all the same, and
    no frame at all is sent: the joiner hears neither "waiting" nor "user
    joined". *)
Theorem join_into_orphan_session_is_silent (w : World) (s : Socket) (st : State)
    (message : ClientMessage) (key : string) (record : User)
    (existing : ChatRoom) (rest : list ChatRoom) :
  truthy (m_userId message) = Some key ->
  fst (getUser w key st) = Ok (Some record) ->
  dbFault w SelectChatRooms = false ->
  dbFault w UpdateChatRooms = false ->
  keysUnique (db_chatRooms st) ->
  filter (waitingFor key) (scanRooms (db_chatRooms st)) = existing :: rest ->
  mapGet (user1Id existing) (users st) = None ->
  let language := orElse (m_preferredLanguage message) (user_preferredLanguage record) in
  handleUserJoin w s message st =
    (Ok tt,
     withUsers
       (mapAssign key (Some (id existing))
          (mapSet key (mkChatUser key s None language) (users st)))
       (withChatRooms (updateWhereId (id existing) (setUser2Id key) (db_chatRooms st))
          st)).
Proof.
  intros Hkey Hget Hsel Hupd Hk Hf Howner language.
  destruct (waiting_row key (db_chatRooms st) existing rest Hf) as [_ [_ [_ Hne]]].
  rewrite (join_reaches_the_owner w s st message key record existing rest
             Hkey Hget Hsel Hupd Hk Hf).
  fold language. unfold tryCatch.
  match goal with |- context [bind (usersGet (Some (user1Id existing))) ?k ?x] =>
    rewrite (bind_ok (usersGet (Some (user1Id existing))) k x x None)
  end.
  - reflexivity.
  - unfold usersGet. run_monad.
    rewrite mapGet_mapAssign_other by congruence.
    rewrite mapGet_mapSet_other by congruence. rewrite Howner. reflexivity.
Qed.

End Pairing.

Section Disconnection.
Context {db : RowOrder}.

Lemma preserves_forEach_In (A : Type) (P : State -> Prop) (l : list A) (f : A -> M unit) :
  (forall x, In x l -> preserves P (f x)) -> preserves P (forEach l f).
Proof.
  induction l as [|x l IH]; simpl; intros Hf.
  - apply preserves_ret.
  - apply preserves_bind; [apply Hf; left; reflexivity|].
    intros _. apply IH. intros y Hy. apply Hf. right. exact Hy.
Qed.

Lemma endChatRoom_keeps_registry (w : World) (key : option string)
    (us : list (string * ChatUser)) :
  preserves (fun st => users st = us) (endChatRoom w key).
Proof.
  unfold endChatRoom.
  repeat first [ split_step | apply preserves_modify; intros ? H; exact H ].
Qed.

Lemma getChatRoom_keeps_registry (w : World) (key : option string)
    (us : list (string * ChatUser)) :
  preserves (fun st => users st = us) (getChatRoom w key).
Proof.
  unfold getChatRoom.
  repeat first [ split_step | apply preserves_modify; intros ? H; exact H ].
Qed.

(** A leave on behalf of a user who has no registry entry leaves the
    registry as it is. *)
Lemma handleLeaveChat_keeps_registry (w : World) (s : Socket) (k : string)
    (room : option string) (us : list (string * ChatUser)) :
  mapGet k us = None ->
  preserves (fun st => users st = us) (handleLeaveChat w s (envelope None (Some k) room)).
Proof.
  intros Habsent. unfold handleLeaveChat, envelope. cbn [m_userId m_chatRoomId].
  repeat first
    [ apply endChatRoom_keeps_registry
    | apply getChatRoom_keeps_registry
    | apply sendToUser_keeps_registry
    | apply usersGet_keeps_registry
    | split_step
    | apply preserves_modify; intros ? H; simpl; rewrite H;
      apply mapAssign_absent; exact Habsent ].
Qed.

Lemma one_entry_per_key (m : list (string * ChatUser)) (k : string) (e e' : ChatUser) :
  NoDup (map fst m) -> In (k, e) m -> In (k, e') m -> e = e'.
Proof.
  induction m as [|[k0 e0] m IH]; simpl; intros Hnd H1 H2; [contradiction|].
  inversion Hnd as [|? ? Hnotin Hnd']; subst.
  destruct H1 as [H1|H1]; destruct H2 as [H2|H2].
  - congruence.
  - inversion H1; subst. exfalso. apply Hnotin.
    apply in_map_iff. exists (k, e'). auto.
  - inversion H2; subst. exfalso. apply Hnotin.
    apply in_map_iff. exists (k, e). auto.
  - apply IH; assumption.
Qed.

Lemma closing_key_is_gone (m : list (string * ChatUser)) (s : Socket) (x : string * ChatUser) :
  NoDup (map fst m) ->
  In x (filter (fun e => Nat.eqb (socket (snd e)) s) m) ->
  mapGet (fst x) (filter (fun e => negb (Nat.eqb (socket (snd e)) s)) m) = None.
Proof.
  intros Hnd Hx. apply filter_In in Hx. destruct Hx as [Hin Hs].
  apply mapGet_absent. intros Hk. apply in_map_iff in Hk.
  destruct Hk as [[k' e'] [Ek Hy]]. simpl in Ek. subst k'.
  apply filter_In in Hy. destruct Hy as [Hin' Hs']. simpl in Hs'.
  destruct x as [k e]. simpl in *.
  assert (e = e') by (eapply one_entry_per_key; eassumption). subst e'.
  rewrite Hs in Hs'. discriminate.
Qed.

(** X13. When a socket closes, the registry loses exactly the entries
    registered on that socket: every other entry stays as it was, binding
    included, whatever the database does during the clean-up. *)
Theorem close_removes_the_entries_of_the_socket (w : World) (s : Socket) (st : State) :
  NoDup (map fst (users st)) ->
  users (step st (Close s w)) =
    filter (fun e => negb (Nat.eqb (socket (snd e)) s)) (users st).
Proof.
  intros Hnd. cbn [step]. unfold handleDisconnection.
  match goal with |- context [bind get ?k ?x] =>
    rewrite (bind_ok get k x x x eq_refl)
  end.
  cbv zeta. rewrite bind_modify. cbn [users withOpenSockets withUsers].
  set (us' := filter (fun e => negb (Nat.eqb (socket (snd e)) s)) (users st)).
  apply (preserves_forEach_In _ (fun st => users st = us')); [|reflexivity].
  intros x Hx. destruct (truthy (chatRoomId (snd x))); [|apply preserves_ret].
  apply handleLeaveChat_keeps_registry.
  apply closing_key_is_gone; assumption.
Qed.

End Disconnection.

Section DisconnectionOfBoundUser.
Context {db : RowOrder}.

(** X14. In a reachable state, when the socket of exactly one registered
    user closes and that user is bound to a session, then (no statement being
    refused) the session is one of the table in which the user takes part, it
    is marked ended at the time of the close, the user's entry is removed,
    and "participant left" is sent to the other participant if still
    connected; nothing is sent to the closed socket. *)
Theorem close_ends_the_session_of_a_bound_user (w : World) (s : Socket) (st : State)
    (k : string) (e : ChatUser) (r : string) :
  reachable st ->
  filter (fun x => Nat.eqb (socket (snd x)) s) (users st) = [(k, e)] ->
  chatRoomId e = Some r ->
  r <> "" ->
  dbFault w UpdateChatRooms = false ->
  dbFault w SelectChatRooms = false ->
  exists room,
    In room (db_chatRooms st) /\ id room = r /\ participant k room /\
    let st1 :=
      withUsers (filter (fun x => negb (Nat.eqb (socket (snd x)) s)) (users st))
        (withOpenSockets (filter (fun s' => negb (Nat.eqb s' s)) (openSockets st)) st) in
    step st (Close s w) =
      withWire (wire st ++ delivered st1 (truthy (otherUserIdOf room (Some k)))
                              (UserLeftFrame "The other user has left the chat"))
        (withChatRooms (updateWhereId r (setEnded (now w)) (db_chatRooms st)) st1).
Proof.
  intros Hreach Hclosing Hr Hne Hupd Hsel.
  destruct (reachable_serverInv st Hreach) as [[Hk _] [[Hnd _] [Hb _]]].
  assert (Hin : In (k, e) (filter (fun x => Nat.eqb (socket (snd x)) s) (users st)))
    by (rewrite Hclosing; left; reflexivity).
  pose proof (closing_key_is_gone (users st) s (k, e) Hnd Hin) as Hgone.
  apply filter_In in Hin. destruct Hin as [Hin _].
  destruct (Hb k e r Hin Hr) as [room [Hroom [Hid Hp]]].
  exists room. split; [exact Hroom|]. split; [exact Hid|]. split; [exact Hp|].
  intros st1. subst r. cbn [step]. unfold handleDisconnection.
  match goal with |- context [bind get ?f ?x] =>
    rewrite (bind_ok get f x x x eq_refl)
  end.
  cbv zeta. rewrite bind_modify. cbn [users withOpenSockets withUsers].
  rewrite Hclosing. cbn [forEach fst snd]. rewrite Hr, (truthy_nonempty _ Hne).
  fold st1.
  rewrite (bind_ok _ _ _ _ _
             (handleLeaveChat_runs w s st1 (envelope None (Some k) (Some (id room)))
                k room eq_refl eq_refl Hupd Hsel Hk Hroom)).
  unfold ret. cbn [snd].
  replace (mapAssign k None (users st1)) with (users st1)
    by (symmetry; apply mapAssign_absent; exact Hgone).
  match goal with |- withUsers _ ?x = _ => change (users st1) with (users x) end.
  rewrite withUsers_same. reflexivity.
Qed.

(** X15. A join whose directory lookup is refused by the database is
    answered "Invalid message format" on the joining socket, through the
    handler of the connection, and changes nothing else. *)
Theorem join_with_directory_down_is_called_malformed (w : World) (s : Socket) (st : State)
    (message : ClientMessage) (key : string) :
  m_type message = Some "join" ->
  truthy (m_userId message) = Some key ->
  dbFault w SelectUsers = true ->
  step st (Incoming s (Some message) w) =
    withWire (wire st ++ reported st s "Invalid message format") st.
Proof.
  intros Htype Hkey Hdown. cbn [step]. unfold onMessage, tryCatch, handleMessage.
  rewrite Htype. unfold handleUserJoin. rewrite Hkey.
  rewrite (bind_throw _ _ st st "database error")
    by (unfold getUser; run_monad; rewrite Hdown; reflexivity).
  rewrite sendError_wire. reflexivity.
Qed.

(** X16. A typing signal of a sender bound to the session, when the lookup
    of the session is refused by the database, is answered "Invalid message
    format" on the socket it came from; nothing else changes. *)
Theorem typing_with_lookup_down_is_called_malformed (w : World) (s : Socket) (st : State)
    (message : ClientMessage) (key : string) (user : ChatUser) :
  m_type message = Some "typing" ->
  m_userId message = Some key ->
  mapGet key (users st) = Some user ->
  strictEq (chatRoomId user) (m_chatRoomId message) = true ->
  dbFault w SelectChatRooms = true ->
  step st (Incoming s (Some message) w) =
    withWire (wire st ++ reported st s "Invalid message format") st.
Proof.
  intros Htype Hkey Huser Hbound Hdown. cbn [step].
  unfold onMessage, tryCatch, handleMessage.
  rewrite Htype. unfold handleTyping. rewrite Hkey.
  rewrite (bind_ok _ _ st st (Some user))
    by (unfold usersGet; run_monad; rewrite Huser; reflexivity).
  rewrite Hbound. cbn [negb].
  rewrite (bind_throw _ _ st st "database error")
    by (unfold getChatRoom; run_monad; rewrite Hdown; reflexivity).
  rewrite sendError_wire. reflexivity.
Qed.

End DisconnectionOfBoundUser.

Section OrderBy.
Variable A : Type.
Variable time : A -> Time.

Lemma insertByDesc_perm (x : A) (l : list A) :
  Permutation (insertByDesc time x l) (x :: l).
Proof.
  induction l as [|y l IH]; simpl; [reflexivity|].
  destruct (Nat.leb (time y) (time x)); [reflexivity|].
  rewrite IH. apply perm_swap.
Qed.

Lemma orderByDesc_perm (l : list A) : Permutation (orderByDesc time l) l.
Proof.
  induction l as [|x l IH]; simpl; [reflexivity|].
  rewrite insertByDesc_perm. constructor. exact IH.
Qed.

Lemma insertByDesc_head (x y : A) (l : list A) :
  newerFirst time y x -> HdRel (newerFirst time) y l -> HdRel (newerFirst time) y (insertByDesc time x l).
Proof.
  intros Hyx Hl. destruct l as [|z l]; simpl; [constructor; exact Hyx|].
  destruct (Nat.leb (time z) (time x)); constructor; [exact Hyx|].
  inversion Hl. assumption.
Qed.

Lemma insertByDesc_sorted (x : A) (l : list A) :
  Sorted (newerFirst time) l -> Sorted (newerFirst time) (insertByDesc time x l).
Proof.
  induction l as [|y l IH]; simpl; intros Hs.
  - repeat constructor.
  - inversion Hs as [|? ? Hl Hhd]; subst.
    destruct (Nat.leb (time y) (time x)) eqn:E.
    + apply Nat.leb_le in E. constructor; [exact Hs|]. constructor. exact E.
    + apply Nat.leb_gt in E. constructor; [apply IH; exact Hl|].
      apply insertByDesc_head; [unfold newerFirst; lia|exact Hhd].
Qed.

Lemma orderByDesc_sorted (l : list A) : Sorted (newerFirst time) (orderByDesc time l).
Proof.
  induction l as [|x l IH]; simpl; [constructor|].
  apply insertByDesc_sorted. exact IH.
Qed.

End OrderBy.

Section History.
Context {order : ScanOrder Message}.

Lemma selected_rows (A : Type) (o : ScanOrder A) (time : A -> Time) (p : A -> bool)
    (t : list A) :
  Permutation (orderByDesc time (filter p (scan t))) (filter p t).
Proof.
  rewrite orderByDesc_perm. apply Permutation_filter_compat. apply scan_perm.
Qed.

(** X17. [getMessages], when the statement is not refused, returns the
    stored messages of the session, all of them and each once, ordered from
    the newest to the oldest, and leaves the state as it is. *)
Theorem history_lists_the_session_newest_first (room : string) (st : State) :
  exists l,
    getMessages false room st = (Ok l, st) /\
    Permutation l (filter (fun m => String.eqb (msg_chatRoomId m) room) (db_messages st)) /\
    Sorted (fun a b => msg_createdAt b <= msg_createdAt a) l.
Proof.
  eexists. split; [reflexivity|]. split.
  - apply selected_rows.
  - apply (orderByDesc_sorted Message msg_createdAt).
Qed.

(** X18. A message stored by [createMessage] shows up in the history of its
    session, which is the history from before with that one message added,
    and in the history of no other session. *)
Theorem stored_message_joins_the_history_of_its_session (w : World) (d : InsertMessage)
    (st st1 : State) (saved : Message) (room : string) :
  createMessage w d st = (Ok saved, st1) ->
  exists before after,
    getMessages false room st = (Ok before, st) /\
    getMessages false room st1 = (Ok after, st1) /\
    (room = msg_chatRoomId saved -> Permutation after (saved :: before)) /\
    (room <> msg_chatRoomId saved -> Permutation after before).
Proof.
  intros Hsave. destruct (createMessage_stored _ _ _ _ _ Hsave) as [-> _].
  eexists. eexists. split; [reflexivity|]. split; [reflexivity|].
  cbn [db_messages withMessages]. split; intros Hroom.
  - rewrite !selected_rows, filter_app. simpl.
    subst room. rewrite String.eqb_refl.
    rewrite <- Permutation_cons_append. reflexivity.
  - rewrite !selected_rows, filter_app. simpl.
    assert (E : String.eqb (msg_chatRoomId saved) room = false)
      by (apply String.eqb_neq; congruence).
    rewrite E, app_nil_r. reflexivity.
Qed.

End History.

Section Dictionary.
Context {order : ScanOrder DictionaryEntry}.

Lemma filter_twice (A : Type) (p : A -> bool) (l : list A) :
  filter p (filter p l) = filter p l.
Proof.
  induction l as [|x l IH]; simpl; [reflexivity|].
  destruct (p x) eqn:E; simpl; [rewrite E, IH; reflexivity|exact IH].
Qed.

Lemma filter_all (A : Type) (p : A -> bool) (l : list A) :
  (forall x, In x l -> p x = true) -> filter p l = l.
Proof.
  induction l as [|x l IH]; simpl; intros H; [reflexivity|].
  rewrite (H x) by auto. f_equal. apply IH. intros y Hy. apply H. auto.
Qed.

(** X19. DELETE /api/dictionary/:id removes the entries that have that id
    and belong to the caller, and no other: entries of other users stay
    whatever id is given.  It answers success also when nothing matched, in
    which case the table is unchanged, and deleting a second time changes
    nothing more. *)
Theorem delete_removes_only_the_callers_entry (user k : string) (t : list DictionaryEntry) :
  let t' := snd (deleteDictionary false user k t) in
  fst (deleteDictionary false user k t) = Json true /\
  (forall e, In e t' <-> In e t /\ ~ (entry_id e = k /\ entry_userId e = user)) /\
  ((forall e, In e t -> ~ (entry_id e = k /\ entry_userId e = user)) -> t' = t) /\
  snd (deleteDictionary false user k t') = t'.
Proof.
  intros t'. subst t'. unfold deleteDictionary, deleteDictionaryEntry. cbn [fst snd].
  split; [reflexivity|].
  assert (Hp : forall e,
             negb (String.eqb (entry_id e) k && String.eqb (entry_userId e) user) = true
             <-> ~ (entry_id e = k /\ entry_userId e = user)).
  { intros e. rewrite negb_true_iff, andb_false_iff, !String.eqb_neq. split.
    - intros [H|H] [H1 H2]; contradiction.
    - intros H. destruct (string_dec (entry_id e) k) as [E|E]; [|left; exact E].
      right. intros E2. apply H. auto. }
  split; [|split].
  - intros e. rewrite filter_In, Hp. reflexivity.
  - intros H. apply filter_all. intros e He. apply Hp. apply H. exact He.
  - apply filter_twice.
Qed.



(** X21. GET /api/dictionary, when the statement is not refused, answers
    with the caller's entries, all of them and each once, and no entry of
    anybody else, ordered from the newest to the oldest. *)
Theorem listing_is_the_callers_entries_newest_first (user : string)
    (t : list DictionaryEntry) :
  exists listing,
    getDictionary false user t = Json listing /\
    Permutation listing (filter (fun e => String.eqb (entry_userId e) user) t) /\
    (forall e, In e listing -> entry_userId e = user) /\
    Sorted (fun a b => entry_createdAt b <= entry_createdAt a) listing.
Proof.
  eexists. split; [reflexivity|]. split; [apply selected_rows|]. split.
  - intros e He.
    apply (Permutation_in _ (selected_rows DictionaryEntry order entry_createdAt _ t)) in He.
    apply filter_In in He. apply String.eqb_eq. apply He.
  - apply (orderByDesc_sorted DictionaryEntry entry_createdAt).
Qed.

End Dictionary.

Section TranslationRoutes.


Lemma orElse_nonempty (v : option string) (d : string) :
  d <> "" -> orElse v d <> "".
Proof.
  intros Hd. unfold orElse, truthy. destruct v as [x|]; [|auto].
  destruct (String.eqb x "") eqn:E; [auto|].
  apply String.eqb_neq in E. auto.
Qed.

(** X23. Language detection never fails and never answers an empty code.
    When the text can be encoded and the API answers with an HTTP success
    status and a list of matches whose first has a non-empty source,
    [detectLanguage] returns that source and the endpoint answers it.  When
    the text cannot be encoded, the request fails, the status is not a
    success, the body is not JSON, or there is no first match with a
    non-empty source, it returns "en-GB".  The endpoint answers 400 for a
    missing or empty text and the detected code otherwise. *)
Theorem detection_always_answers_a_language (reply : DetectOutcome) (text : option string) :
  detectLanguage reply text <> "" /\
  (forall status data source rest,
      unencodable text = false ->
      reply = DetectResponse status (Some data) ->
      responseOk status = true ->
      matches data = Some (Some source :: rest) ->
      source <> "" ->
      detectLanguage reply text = source /\
      (truthy text <> None -> postDetectLanguage reply text = Json source)) /\
  (unencodable text = true \/
   reply = DetectFailure \/
   (exists status body,
      reply = DetectResponse status body /\
      (responseOk status = false \/
       body = None \/
       exists data,
         body = Some data /\
         (matches data = None \/
          matches data = Some [] \/
          exists rest,
            matches data = Some (None :: rest) \/
            matches data = Some (Some "" :: rest)))) ->
   detectLanguage reply text = "en-GB") /\
  (truthy text = None -> postDetectLanguage reply text = Status 400 "Text is required") /\
  (truthy text <> None ->
   postDetectLanguage reply text = Json (detectLanguage reply text)).
Proof.
  assert (Hd : "en-GB" <> "") by discriminate.
  assert (Hpost : truthy text <> None ->
                  postDetectLanguage reply text = Json (detectLanguage reply text)).
  { unfold postDetectLanguage. destruct (truthy text); [reflexivity|congruence]. }
  split; [|split; [|split; [|split]]].
  - unfold detectLanguage. destruct (encodeURIComponent text); [|exact Hd].
    destruct reply as [|status body]; [exact Hd|].
    destruct (responseOk status); simpl; [|exact Hd].
    destruct body as [data|]; [|exact Hd].
    destruct (matches data) as [[|first rest]|]; try exact Hd.
    apply orElse_nonempty. exact Hd.
  - intros status data source rest Henc -> Hok Hm Hne.
    assert (E : detectLanguage (DetectResponse status (Some data)) text = source).
    { unfold detectLanguage, encodeURIComponent. unfold unencodable in Henc.
      destruct text as [t|]; [rewrite Henc|]; rewrite Hok, Hm; simpl;
        unfold orElse; rewrite (truthy_nonempty _ Hne); reflexivity. }
    split; [exact E|]. intros Ht. rewrite (Hpost Ht), E. reflexivity.
  - unfold detectLanguage, encodeURIComponent, unencodable.
    intros [Henc|[->|[status [body [-> H]]]]].
    + destruct text as [t|]; [rewrite Henc; reflexivity|discriminate].
    + destruct text as [t|]; [destruct (hasLoneSurrogate t)|]; reflexivity.
    + assert (G : (if negb (responseOk status) then "en-GB"
                   else match body with
                        | None => "en-GB"
                        | Some data =>
                            match matches data with
                            | Some (first :: _) => orElse first "en-GB"
                            | _ => "en-GB"
                            end
                        end) = "en-GB").
      { destruct H as [->|[->|[data [-> H]]]].
        - reflexivity.
        - destruct (responseOk status); reflexivity.
        - destruct (responseOk status); simpl; [|reflexivity].
          destruct H as [->|[->|[rest [->| ->]]]]; reflexivity. }
      destruct text as [t|]; [destruct (hasLoneSurrogate t)|]; [reflexivity|exact G|exact G].
  - intros Ht. unfold postDetectLanguage. rewrite Ht. reflexivity.
  - exact Hpost.
Qed.

End TranslationRoutes.

(* ================================================================== *)
(** * The further properties at work on the scenarios *)

Lemma bound_entry_names_a_session_of_its_user_witness :
  let st := run (db := insertionOrder) (initialState directory) cleoWaits in
  exists room, In room (db_chatRooms st) /\ id room = "r0" /\ participant "ana" room.
Proof.
  apply (bound_entry_names_a_session_of_its_user (db := insertionOrder)
           (run (db := insertionOrder) (initialState directory) cleoWaits)
           "ana" (mkChatUser "ana" 1 (Some "r0") "en-GB") "r0").
  - apply reachable_run. apply reachable_init.
  - reflexivity.
  - reflexivity.
Defined.

Lemma at_most_one_user_waits_witness :
  user1Id (mkChatRoom "r0" "ana" None true 1 None)
  = user1Id (mkChatRoom "r1" "ana" None true 2 None).
Proof.
  apply (at_most_one_user_waits (db := insertionOrder)
           (run (db := insertionOrder) (initialState directory) anaTwice)).
  - apply reachable_run. apply reachable_init.
  - left. reflexivity.
  - right. left. reflexivity.
  - reflexivity.
  - reflexivity.
  - reflexivity.
  - reflexivity.
Defined.

Lemma stored_messages_come_from_participants_witness :
  let st := run (db := insertionOrder) (initialState directory) anaSaidHello in
  exists room,
    In room (db_chatRooms st) /\ id room = "r0" /\ participant "ana" room.
Proof.
  apply (stored_messages_come_from_participants (db := insertionOrder)
           (run (db := insertionOrder) (initialState directory) anaSaidHello)
           (mkMessage "m0" "r0" "ana" "hello" "en-GB" 3)).
  - apply reachable_run. apply reachable_init.
  - left. reflexivity.
Defined.

Lemma sessions_only_move_forward_witness :
  let st := run (db := insertionOrder) (initialState directory) anaAndBen in
  let old := mkChatRoom "r0" "ana" (Some "ben") true 1 None in
  exists new,
    In new (db_chatRooms
              (run (db := insertionOrder) st
                 [Incoming 1 (Some (leave "ana" "r0")) (calm 5 "r2")])) /\
    id new = id old /\
    user1Id new = user1Id old /\
    createdAt new = createdAt old /\
    (forall u, user2Id old = Some u -> user2Id new = Some u) /\
    (isActive old = false -> isActive new = false).
Proof.
  apply (sessions_only_move_forward (db := insertionOrder)
           (run (db := insertionOrder) (initialState directory) anaAndBen)
           [Incoming 1 (Some (leave "ana" "r0")) (calm 5 "r2")]
           (mkChatRoom "r0" "ana" (Some "ben") true 1 None)).
  - apply reachable_run. apply reachable_init.
  - left. reflexivity.
Defined.

Lemma leave_ends_the_session_for_any_caller_witness :
  let st := run (db := insertionOrder) (initialState directory) anaBenAndVisitor in
  handleLeaveChat (db := insertionOrder) (calm 5 "r2") 3 (leave "cleo" "r0") st =
    (Ok tt,
     withUsers (users st)
       (withWire (wire st ++ [(1, UserLeftFrame "The other user has left the chat")])
          (withChatRooms [mkChatRoom "r0" "ana" (Some "ben") false 1 (Some 5)] st))) /\
  In (mkChatRoom "r0" "ana" (Some "ben") false 1 (Some 5))
     [mkChatRoom "r0" "ana" (Some "ben") false 1 (Some 5)].
Proof.
  exact (leave_ends_the_session_for_any_caller (db := insertionOrder) (calm 5 "r2") 3
           (run (db := insertionOrder) (initialState directory) anaBenAndVisitor)
           (leave "cleo" "r0") "cleo" (mkChatRoom "r0" "ana" (Some "ben") true 1 None)
           eq_refl eq_refl eq_refl eq_refl ltac:(keys_distinct) (or_introl eq_refl)).
Defined.

Lemma leave_cut_short_keeps_the_binding_witness :
  let st := run (db := insertionOrder) (initialState directory) anaAndBen in
  handleLeaveChat (db := insertionOrder) (lookupDown 5 "r2") 1 (leave "ana" "r0") st =
    (Ok tt, withChatRooms [mkChatRoom "r0" "ana" (Some "ben") false 1 (Some 5)] st).
Proof.
  exact (leave_cut_short_keeps_the_binding (db := insertionOrder) (lookupDown 5 "r2") 1
           (run (db := insertionOrder) (initialState directory) anaAndBen)
           (leave "ana" "r0") "r0" eq_refl eq_refl eq_refl).
Defined.

Lemma typing_goes_to_the_other_participant_only_witness :
  let st := run (db := insertionOrder) (initialState directory) anaAndBen in
  handleTyping (db := insertionOrder) (calm 3 "x") 2 (typing "ben" "r0") st =
    (Ok tt, withWire (wire st ++ [(1, TypingFrame (Some "ben") (Some true))]) st).
Proof.
  exact (proj1 (typing_goes_to_the_other_participant_only (db := insertionOrder)
           (calm 3 "x") 2
           (run (db := insertionOrder) (initialState directory) anaAndBen)
           (typing "ben" "r0") "ben" (mkChatUser "ben" 2 (Some "r0") "fr-FR")
           (mkChatRoom "r0" "ana" (Some "ben") true 1 None) "ana"
           eq_refl eq_refl eq_refl eq_refl ltac:(keys_distinct) (or_introl eq_refl)
           (or_intror (conj eq_refl eq_refl)) ltac:(discriminate) eq_refl)).
Defined.

Lemma stored_message_is_not_relayed_when_lookup_fails_witness :
  let st := run (db := insertionOrder) (initialState directory) anaAndBen in
  handleSendMessage (db := insertionOrder) (lookupDown 3 "m0") 1 (say "ana" "r0" "hello") st =
    (Ok tt,
     withWire (wire st ++ [(1, ErrorFrame "Failed to send message")])
       (withMessages [mkMessage "m0" "r0" "ana" "hello" "en-GB" 3] st)).
Proof.
  exact (stored_message_is_not_relayed_when_lookup_fails (db := insertionOrder)
           (lookupDown 3 "m0") 1
           (run (db := insertionOrder) (initialState directory) anaAndBen)
           (withMessages [mkMessage "m0" "r0" "ana" "hello" "en-GB" 3]
              (run (db := insertionOrder) (initialState directory) anaAndBen))
           (say "ana" "r0" "hello") "ana" (mkChatUser "ana" 1 (Some "r0") "en-GB")
           (mkMessage "m0" "r0" "ana" "hello" "en-GB" 3)
           eq_refl eq_refl eq_refl eq_refl eq_refl).
Defined.

Lemma join_without_partner_waits_witness :
  let st := run (db := insertionOrder) (initialState directory) [Connection 1] in
  handleUserJoin (db := insertionOrder) (calm 1 "r0") 1 (join "ana") st =
    (Ok tt,
     withWire [(1, WaitingFrame "Waiting for another user to join...")]
       (withUsers [("ana", mkChatUser "ana" 1 (Some "r0") "en-GB")]
          (withChatRooms [mkChatRoom "r0" "ana" None true 1 None] st))).
Proof.
  exact (join_without_partner_waits (db := insertionOrder) (calm 1 "r0") 1
           (run (db := insertionOrder) (initialState directory) [Connection 1])
           (join "ana") "ana" (mkUser "ana" (Some "Ana") (Some "Silva") "en-GB")
           eq_refl eq_refl eq_refl eq_refl eq_refl eq_refl).
Defined.

Lemma join_refused_leaves_the_user_registered_witness :
  let st := run (db := insertionOrder) (initialState directory) [Connection 1] in
  handleUserJoin (db := insertionOrder) (lookupDown 1 "r0") 1 (join "ana") st =
    (Ok tt,
     withWire [(1, ErrorFrame "Failed to join chat")]
       (withUsers [("ana", mkChatUser "ana" 1 None "en-GB")] st)).
Proof.
  exact (join_refused_leaves_the_user_registered (db := insertionOrder)
           (lookupDown 1 "r0") 1
           (run (db := insertionOrder) (initialState directory) [Connection 1])
           (join "ana") "ana" (mkUser "ana" (Some "Ana") (Some "Silva") "en-GB")
           eq_refl eq_refl eq_refl).
Defined.

Lemma join_pairs_and_notifies_both_witness :
  (let st := run (db := insertionOrder) (initialState directory)
               [Connection 1; Connection 2; Incoming 1 (Some (join "ana")) (calm 1 "r0")] in
   handleUserJoin (db := insertionOrder) (calm 2 "r1") 2 (join "ben") st =
     (Ok tt,
      withWire (wire st ++ [(2, UserJoinedFrame "r0" "ana" "Ana Silva" "en-GB");
                            (1, UserJoinedFrame "r0" "ben" "Ben" "fr-FR")])
        (withUsers [("ana", mkChatUser "ana" 1 (Some "r0") "en-GB");
                    ("ben", mkChatUser "ben" 2 (Some "r0") "fr-FR")]
           (withChatRooms [mkChatRoom "r0" "ana" (Some "ben") true 1 None] st)))) /\
  (let st := run (db := insertionOrder) (initialState blankNames)
               [Connection 1; Connection 2; Incoming 1 (Some (join "dan")) (calm 1 "r0")] in
   handleUserJoin (db := insertionOrder) (calm 2 "r1") 2 (join "eve") st =
     (Ok tt,
      withWire (wire st ++ [(2, UserJoinedFrame "r0" "dan" "Anonymous" "pt-PT");
                            (1, UserJoinedFrame "r0" "eve" "Eve" "it-IT")])
        (withUsers [("dan", mkChatUser "dan" 1 (Some "r0") "pt-PT");
                    ("eve", mkChatUser "eve" 2 (Some "r0") "it-IT")]
           (withChatRooms [mkChatRoom "r0" "dan" (Some "eve") true 1 None] st)))).
Proof.
  split.
  - exact (join_pairs_and_notifies_both (db := insertionOrder) (calm 2 "r1") 2
             (run (db := insertionOrder) (initialState directory)
                [Connection 1; Connection 2; Incoming 1 (Some (join "ana")) (calm 1 "r0")])
             (join "ben") "ben" (mkUser "ben" (Some "Ben") None "fr-FR")
             (mkChatRoom "r0" "ana" None true 1 None) []
             (mkChatUser "ana" 1 (Some "r0") "en-GB")
             (Some (mkUser "ana" (Some "Ana") (Some "Silva") "en-GB"))
             eq_refl eq_refl eq_refl eq_refl eq_refl ltac:(keys_distinct) eq_refl eq_refl).
  - exact (join_pairs_and_notifies_both (db := insertionOrder) (calm 2 "r1") 2
             (run (db := insertionOrder) (initialState blankNames)
                [Connection 1; Connection 2; Incoming 1 (Some (join "dan")) (calm 1 "r0")])
             (join "eve") "eve"
             (mkUser "eve" (Some (String.append noBreakSpace "Eve"))
                     (Some (bytes [227; 128; 128])) "it-IT")
             (mkChatRoom "r0" "dan" None true 1 None) []
             (mkChatUser "dan" 1 (Some "r0") "pt-PT")
             (Some (mkUser "dan" (Some noBreakSpace) (Some " ") "pt-PT"))
             eq_refl eq_refl eq_refl eq_refl eq_refl ltac:(keys_distinct) eq_refl eq_refl).
Defined.

Lemma join_into_orphan_session_is_silent_witness :
  let st := run (db := insertionOrder) (initialState directory) anaDropped in
  handleUserJoin (db := insertionOrder) (calm 4 "r2") 3 (join "cleo") st =
    (Ok tt,
     withUsers [("cleo", mkChatUser "cleo" 3 (Some "r0") "de-DE")]
       (withChatRooms [mkChatRoom "r0" "ana" (Some "cleo") true 1 None] st)).
Proof.
  exact (join_into_orphan_session_is_silent (db := insertionOrder) (calm 4 "r2") 3
           (run (db := insertionOrder) (initialState directory) anaDropped)
           (join "cleo") "cleo" (mkUser "cleo" None None "de-DE")
           (mkChatRoom "r0" "ana" None true 1 None) []
           eq_refl eq_refl eq_refl eq_refl ltac:(keys_distinct) eq_refl eq_refl).
Defined.

Lemma close_removes_the_entries_of_the_socket_witness :
  let st := run (db := insertionOrder) (initialState directory) anaAndBen in
  users (step (db := insertionOrder) st (Close 1 (updateDown 5 "x")))
  = [("ben", mkChatUser "ben" 2 (Some "r0") "fr-FR")].
Proof.
  apply (close_removes_the_entries_of_the_socket (db := insertionOrder)
           (updateDown 5 "x") 1
           (run (db := insertionOrder) (initialState directory) anaAndBen)).
  simpl. repeat (constructor; [simpl; intuition discriminate|]). constructor.
Defined.

Lemma close_ends_the_session_of_a_bound_user_witness :
  let st := run (db := insertionOrder) (initialState directory) anaAndBen in
  exists room,
    In room (db_chatRooms st) /\ id room = "r0" /\ participant "ana" room /\
    step (db := insertionOrder) st (Close 1 (calm 5 "x")) =
      withWire (wire st ++ delivered
                  (withUsers [("ben", mkChatUser "ben" 2 (Some "r0") "fr-FR")]
                     (withOpenSockets [2] st))
                  (truthy (otherUserIdOf room (Some "ana")))
                  (UserLeftFrame "The other user has left the chat"))
        (withChatRooms (updateWhereId "r0" (setEnded 5) (db_chatRooms st))
           (withUsers [("ben", mkChatUser "ben" 2 (Some "r0") "fr-FR")]
              (withOpenSockets [2] st))).
Proof.
  apply (close_ends_the_session_of_a_bound_user (db := insertionOrder) (calm 5 "x") 1
           (run (db := insertionOrder) (initialState directory) anaAndBen)
           "ana" (mkChatUser "ana" 1 (Some "r0") "en-GB") "r0").
  - apply reachable_run. apply reachable_init.
  - reflexivity.
  - reflexivity.
  - discriminate.
  - reflexivity.
  - reflexivity.
Defined.

Lemma join_with_directory_down_is_called_malformed_witness :
  let st := run (db := insertionOrder) (initialState directory) [Connection 1] in
  step (db := insertionOrder) st (Incoming 1 (Some (join "ana")) (directoryDown 1 "r0")) =
    withWire [(1, ErrorFrame "Invalid message format")] st.
Proof.
  exact (join_with_directory_down_is_called_malformed (db := insertionOrder)
           (directoryDown 1 "r0") 1
           (run (db := insertionOrder) (initialState directory) [Connection 1])
           (join "ana") "ana" eq_refl eq_refl eq_refl).
Defined.

Lemma typing_with_lookup_down_is_called_malformed_witness :
  let st := run (db := insertionOrder) (initialState directory) anaAndBen in
  step (db := insertionOrder) st (Incoming 1 (Some (typing "ana" "r0")) (lookupDown 3 "x")) =
    withWire (wire st ++ [(1, ErrorFrame "Invalid message format")]) st.
Proof.
  exact (typing_with_lookup_down_is_called_malformed (db := insertionOrder)
           (lookupDown 3 "x") 1
           (run (db := insertionOrder) (initialState directory) anaAndBen)
           (typing "ana" "r0") "ana" (mkChatUser "ana" 1 (Some "r0") "en-GB")
           eq_refl eq_refl eq_refl eq_refl eq_refl).
Defined.

Lemma stored_message_joins_the_history_of_its_session_witness :
  let st := run (db := insertionOrder) (initialState directory) anaSaidHello in
  let saved := mkMessage "m1" "r0" "ben" "salut" "fr-FR" 4 in
  exists before after,
    getMessages (order := insertionScan Message) false "r0" st = (Ok before, st) /\
    getMessages (order := insertionScan Message) false "r0"
      (withMessages (db_messages st ++ [saved]) st)
      = (Ok after, withMessages (db_messages st ++ [saved]) st) /\
    ("r0" = msg_chatRoomId saved -> Permutation after (saved :: before)) /\
    ("r0" <> msg_chatRoomId saved -> Permutation after before).
Proof.
  apply (stored_message_joins_the_history_of_its_session
           (order := insertionScan Message) (calm 4 "m1")
           (mkInsertMessage (Some "r0") (Some "ben") (Some "salut") "fr-FR")
           (run (db := insertionOrder) (initialState directory) anaSaidHello)).
  reflexivity.
Defined.


Lemma detection_always_answers_a_language_witness :
  let reply := DetectResponse 200 (Some (mkDetectBody (Some [Some "fr-FR"; Some "it-IT"]))) in
  detectLanguage reply (Some "bonjour") = "fr-FR" /\
  postDetectLanguage reply (Some "bonjour") = Json "fr-FR" /\
  detectLanguage reply (Some loneSurrogate) = "en-GB" /\
  detectLanguage (DetectResponse 200 (Some (mkDetectBody (Some [Some ""; Some "it-IT"]))))
                 (Some "bonjour") = "en-GB".
Proof.
  split; [|split; [|split]].
  - exact (proj1 (proj1 (proj2 (detection_always_answers_a_language
             (DetectResponse 200 (Some (mkDetectBody (Some [Some "fr-FR"; Some "it-IT"]))))
             (Some "bonjour")))
             200 (mkDetectBody (Some [Some "fr-FR"; Some "it-IT"])) "fr-FR" [Some "it-IT"]
             eq_refl eq_refl eq_refl eq_refl ltac:(discriminate))).
  - exact (proj2 (proj1 (proj2 (detection_always_answers_a_language
             (DetectResponse 200 (Some (mkDetectBody (Some [Some "fr-FR"; Some "it-IT"]))))
             (Some "bonjour")))
             200 (mkDetectBody (Some [Some "fr-FR"; Some "it-IT"])) "fr-FR" [Some "it-IT"]
             eq_refl eq_refl eq_refl eq_refl ltac:(discriminate))
           ltac:(discriminate)).
  - exact (proj1 (proj2 (proj2 (detection_always_answers_a_language
             (DetectResponse 200 (Some (mkDetectBody (Some [Some "fr-FR"; Some "it-IT"]))))
             (Some loneSurrogate))))
           (or_introl eq_refl)).
  - apply (proj1 (proj2 (proj2 (detection_always_answers_a_language
             (DetectResponse 200 (Some (mkDetectBody (Some [Some ""; Some "it-IT"]))))
             (Some "bonjour"))))).
    right. right. exists 200, (Some (mkDetectBody (Some [Some ""; Some "it-IT"]))).
    split; [reflexivity|]. right. right.
    exists (mkDetectBody (Some [Some ""; Some "it-IT"])).
    split; [reflexivity|]. right. right.
    exists [Some "it-IT"]. right. reflexivity.
Defined.

